(** * RVC native engine: effects pipeline, inference manager, stability controller

    A shallow embedding of the C++ sources under [app/src/main/cpp]:
    - [dsp/fx_graph.cpp]            : the DSP stages and the [FXGraph] orchestration,
    - [inference/ie_manager.cpp]    : [InferenceEngineManager],
    - [security/lock_manager.cpp]   : [LockManager] (the degradation state machine).

    Samples are C++ [float]s.  They are modelled as IEEE-754 binary32 values
    with the executable specification of the Standard Library
    ([SpecFloat], precision 24, maximal exponent 128), so that NaN, signed
    zeros and infinities behave as they do in the compiled code.  A
    [float* buffer] is a [list] of samples accessed by index; an access
    outside of the list (undefined behaviour in C++) makes the modelled call
    return [None]. *)

From Stdlib Require Import ZArith Bool String Lia.
From Stdlib Require Import Floats.SpecFloat.
From stdpp Require Import base option list.

(** ** Binary32 arithmetic *)

Abbreviation float := spec_float (only parsing).

Module F32.

Definition prec : Z := 24.
Definition emax : Z := 128.

Definition mul : float -> float -> float := SFmul prec emax.
Definition add : float -> float -> float := SFadd prec emax.
Definition sub : float -> float -> float := SFsub prec emax.
Definition div : float -> float -> float := SFdiv prec emax.
Definition opp : float -> float := SFopp.
Definition abs : float -> float := SFabs.
Definition ltb : float -> float -> bool := SFltb.
Definition leb : float -> float -> bool := SFleb.
Definition eqb : float -> float -> bool := SFeqb.

Definition is_nan (x : float) : bool :=
  match x with S754_nan => true | _ => false end.

(** Conversion of an integer ([size_t] to [float]), round to nearest even. *)
Definition of_Z (z : Z) : float := binary_normalize prec emax z 0%Z false.
Definition of_nat (n : nat) : float := of_Z (Z.of_nat n).

(** The value of a decimal literal [num/den] written with suffix [f]:
    the binary32 number nearest to the quotient. *)
Definition lit (num den : Z) : float := div (of_Z num) (of_Z den).

(** [std::min(a, b)] is [(b < a) ? b : a], [std::max(a, b)] is
    [(a < b) ? b : a]. *)
Definition min (a b : float) : float := if ltb b a then b else a.
Definition max (a b : float) : float := if ltb a b then b else a.

Definition zero : float := S754_zero false.
Definition one : float := S754_finite false 8388608 (-23).

End F32.

(** ** Buffers and loops

    [float* buffer] with [size_t numSamples]: the callee indexes the buffer
    with [buffer[i]].  Reads and writes are partial: an index at or beyond
    the end of the list is an access outside of the caller's memory. *)

Abbreviation buffer := (list float) (only parsing).

Definition load (b : buffer) (i : nat) : option float := b !! i.

Definition store (b : buffer) (i : nat) (v : float) : option buffer :=
  if decide (i < length b)%nat then Some (<[i := v]> b) else None.

(** [for (size_t i = start; i < start + count; ++i) body(i)], the body
    acting on the buffer; the loop stops at the first failing access. *)
Fixpoint for_loop (count : nat) (i : nat)
    (body : nat -> buffer -> option buffer) (b : buffer) : option buffer :=
  match count with
  | O => Some b
  | S count' => b' ← body i b; for_loop count' (S i) body b'
  end.

(** ** The effect stages ([dsp/fx_graph.cpp]) *)

(** [const float threshold = 0.005f;] *)
Definition threshold : float := S754_finite false 10737418 (-31).

(** [0.95f] and [0.05f], the two coefficients of [NoiseSuppressor]. *)
Definition ns_alpha : float := S754_finite false 15938355 (-24).
Definition ns_beta : float := S754_finite false 13421773 (-28).

(** [const float limit = 0.99f;] *)
Definition limit : float := S754_finite false 16609444 (-24).

(** [AcousticEchoCanceller::process]: a noise gate. *)
Definition aec_body (i : nat) (b : buffer) : option buffer :=
  x ← load b i;
  if F32.ltb (F32.abs x) threshold then store b i F32.zero else Some b.

Definition AcousticEchoCanceller_process (b : buffer) (numSamples : nat)
    : option buffer :=
  for_loop numSamples 0 aec_body b.

(** [NoiseSuppressor::process]: the loop starts at index 1 and reads the
    already rewritten [buffer[i-1]]. *)
Definition ns_body (i : nat) (b : buffer) : option buffer :=
  x ← load b i;
  p ← load b (i - 1);
  store b i (F32.add (F32.mul x ns_alpha) (F32.mul p ns_beta)).

Definition NoiseSuppressor_process (b : buffer) (numSamples : nat)
    : option buffer :=
  for_loop (numSamples - 1) 1 ns_body b.

(** [MultibandCompressor::process]: the peak limiter,
    [std::max(-limit, std::min(limit, buffer[i]))]. *)
Definition limiter_sample (x : float) : float :=
  F32.max (F32.opp limit) (F32.min limit x).

Definition compressor_body (i : nat) (b : buffer) : option buffer :=
  x ← load b i;
  store b i (limiter_sample x).

Definition MultibandCompressor_process (b : buffer) (numSamples : nat)
    : option buffer :=
  for_loop numSamples 0 compressor_body b.

(** [PacketLossConcealer]: one flag, set by [activate] and [deactivate];
    [process] fades the packet out while the flag is set. *)
Record PacketLossConcealer : Type := { isActive : bool }.

Definition PacketLossConcealer_activate (p : PacketLossConcealer)
    : PacketLossConcealer := {| isActive := true |}.
Definition PacketLossConcealer_deactivate (p : PacketLossConcealer)
    : PacketLossConcealer := {| isActive := false |}.

Definition fade_gain (i numSamples : nat) : float :=
  F32.sub F32.one (F32.div (F32.of_nat i) (F32.of_nat numSamples)).

Definition plc_body (numSamples : nat) (i : nat) (b : buffer) : option buffer :=
  x ← load b i;
  store b i (F32.mul x (fade_gain i numSamples)).

Definition PacketLossConcealer_process (p : PacketLossConcealer)
    (b : buffer) (numSamples : nat) : option buffer :=
  if isActive p then for_loop numSamples 0 (plc_body numSamples) b
  else Some b.

(** The interface [AudioProcessor] and its four implementations; only the
    concealer object has a field.  [process] is the virtual call. *)
Inductive AudioProcessor : Type :=
  | AEC
  | NS
  | COMPRESSOR
  | PLC (p : PacketLossConcealer).

Definition process (stage : AudioProcessor) (b : buffer) (numSamples : nat)
    : option buffer :=
  match stage with
  | AEC => AcousticEchoCanceller_process b numSamples
  | NS => NoiseSuppressor_process b numSamples
  | COMPRESSOR => MultibandCompressor_process b numSamples
  | PLC p => PacketLossConcealer_process p b numSamples
  end.

(** ** The stability controller ([security/lock_manager.cpp]) *)

Inductive RVCPrecision : Type := FP32 | FP16 | INT8.

(** The state fields of [LockManager]; [stateMutex_] serialises the two
    transitions, which are modelled as atomic state transformers. *)
Record LockManager : Type := {
  isDegradationActive_ : bool;
  isPLCActive_ : bool;
  currentRVCPrecision_ : RVCPrecision
}.

(** The constructor [LockManager::LockManager]. *)
Definition LockManager_new : LockManager :=
  {| isDegradationActive_ := false;
     isPLCActive_ := false;
     currentRVCPrecision_ := FP32 |}.

Definition forceDegradation (lm : LockManager) : LockManager :=
  if isDegradationActive_ lm then lm
  else {| isDegradationActive_ := true;
          isPLCActive_ := true;
          currentRVCPrecision_ := FP16 |}.

Definition restorePerformance (lm : LockManager) : LockManager :=
  if negb (isDegradationActive_ lm) then lm
  else {| isDegradationActive_ := false;
          isPLCActive_ := false;
          currentRVCPrecision_ := FP32 |}.

Definition isDegradationModeActive (lm : LockManager) : bool :=
  isDegradationActive_ lm.
Definition isPLCActive (lm : LockManager) : bool := isPLCActive_ lm.
Definition getCurrentPrecision (lm : LockManager) : RVCPrecision :=
  currentRVCPrecision_ lm.

(** The two calls that mutate the controller, and the state reached from
    the constructor by a sequence of them. *)
Inductive Transition : Type := ForceDegradation | RestorePerformance.

Definition apply_transition (lm : LockManager) (t : Transition) : LockManager :=
  match t with
  | ForceDegradation => forceDegradation lm
  | RestorePerformance => restorePerformance lm
  end.

Definition run_transitions (ts : list Transition) : LockManager :=
  foldl apply_transition LockManager_new ts.

(** ** The effects graph ([FXGraph]) *)

(** The graph owns one object of each stage ([aec_], [ns_], [plc_],
    [compressor_]); the three without a field are not stored. *)
Record FXGraph : Type := {
  isInitialized_ : bool;
  sampleRate_ : Z;
  plc_ : PacketLossConcealer
}.

(** [FXGraph::FXGraph(int sampleRate)]; the concealer starts with
    [isActive = false]. *)
Definition FXGraph_new (sampleRate : Z) : FXGraph :=
  {| isInitialized_ := true;
     sampleRate_ := sampleRate;
     plc_ := {| isActive := false |} |}.

(** Outcome of one entry point of the graph: the graph afterwards, the
    buffer afterwards, and the stage objects whose [process] was called,
    oldest first. *)
Record FXOutcome : Type := {
  fx_graph : FXGraph;
  fx_buffer : buffer;
  fx_calls : list AudioProcessor
}.

Definition set_plc (g : FXGraph) (p : PacketLossConcealer) : FXGraph :=
  {| isInitialized_ := isInitialized_ g;
     sampleRate_ := sampleRate_ g;
     plc_ := p |}.

Definition applyAcousticPreprocessing (g : FXGraph) (b : buffer)
    (numSamples : nat) : option FXOutcome :=
  if negb (isInitialized_ g) then
    Some {| fx_graph := g; fx_buffer := b; fx_calls := [] |}
  else
    b1 ← AcousticEchoCanceller_process b numSamples;
    b2 ← NoiseSuppressor_process b1 numSamples;
    Some {| fx_graph := g; fx_buffer := b2; fx_calls := [AEC; NS] |}.

(** [LockManager::getInstance()] is the process-wide controller; the
    graph reads its [isPLCActive()]. *)
Definition applyPostProcessing (lm : LockManager) (g : FXGraph) (b : buffer)
    (numSamples : nat) : option FXOutcome :=
  if negb (isInitialized_ g) then
    Some {| fx_graph := g; fx_buffer := b; fx_calls := [] |}
  else if isPLCActive lm then
    let p := PacketLossConcealer_activate (plc_ g) in
    b1 ← PacketLossConcealer_process p b numSamples;
    Some {| fx_graph := set_plc g p; fx_buffer := b1; fx_calls := [PLC p] |}
  else
    let p := PacketLossConcealer_deactivate (plc_ g) in
    b1 ← MultibandCompressor_process b numSamples;
    Some {| fx_graph := set_plc g p; fx_buffer := b1;
            fx_calls := [COMPRESSOR] |}.

Definition applyLowPowerDSP (g : FXGraph) (b : buffer) (numSamples : nat)
    : option FXOutcome :=
  if negb (isInitialized_ g) then
    Some {| fx_graph := g; fx_buffer := b; fx_calls := [] |}
  else
    b1 ← AcousticEchoCanceller_process b numSamples;
    b2 ← MultibandCompressor_process b1 numSamples;
    Some {| fx_graph := g; fx_buffer := b2;
            fx_calls := [AEC; COMPRESSOR] |}.

(** ** The inference engine manager ([inference/ie_manager.cpp]) *)

(** The scoped enumerations [ModelType] and [EngineType] share the names
    of their values; each gets a module of its own. *)
Module ModelType.
Inductive t : Type := TFLITE | ONNX | UNKNOWN.
End ModelType.

Module EngineType.
Inductive t : Type := TFLITE | ONNX.
End EngineType.

Inductive DelegateType : Type := DSP | GPU | CPU.

(** The interface the manager uses of a backend ([TFLiteEngine],
    [ONNXEngine]): [loadModel], [benchmark] (milliseconds) and the
    in-place [run]. *)
Record Engine : Type := {
  engine_loadModel : string -> nat -> Z -> bool;
  engine_benchmark : float;
  engine_run : buffer -> nat -> buffer
}.

(** The two backends as the file defines them: loading succeeds, the
    benchmarks are [15.0f] and [18.0f], [run] has an empty body. *)
Definition f15 : float := S754_finite false 15728640 (-20).
Definition f18 : float := S754_finite false 9437184 (-19).
Definition f20 : float := S754_finite false 10485760 (-19).
Definition f25 : float := S754_finite false 13107200 (-19).

Definition TFLiteEngine : Engine :=
  {| engine_loadModel := fun _ _ _ => true;
     engine_benchmark := f15;
     engine_run := fun b _ => b |}.

Definition ONNXEngine : Engine :=
  {| engine_loadModel := fun _ _ _ => true;
     engine_benchmark := f18;
     engine_run := fun b _ => b |}.

Record InferenceEngineManager : Type := {
  tfliteEngine_ : Engine;
  onnxEngine_ : Engine;
  isModelLoaded_ : bool;
  currentModelPath_ : string;
  currentEngine_ : EngineType.t;
  currentDelegate_ : DelegateType
}.

(** [std::string::substr(pos)]: the characters from [pos] to the end. *)
Definition substr (s : string) (pos : nat) : string :=
  String.substring pos (String.length s - pos) s.

Definition determineModelType (path : string) : ModelType.t :=
  if (7 <=? String.length path)%nat
     && String.eqb (substr path (String.length path - 7)) ".tflite"
  then ModelType.TFLITE
  else if (5 <=? String.length path)%nat
     && String.eqb (substr path (String.length path - 5)) ".onnx"
  then ModelType.ONNX
  else ModelType.UNKNOWN.

Definition unloadModel (m : InferenceEngineManager) : InferenceEngineManager :=
  {| tfliteEngine_ := tfliteEngine_ m;
     onnxEngine_ := onnxEngine_ m;
     isModelLoaded_ := false;
     currentModelPath_ := "";
     currentEngine_ := currentEngine_ m;
     currentDelegate_ := currentDelegate_ m |}.

(** The comparison chain at the end of [benchmarkAllDelegates], on the
    three measured times. *)
Definition selectDelegate (dspTime gpuTime cpuTime : float) : DelegateType :=
  if F32.ltb dspTime gpuTime && F32.ltb dspTime cpuTime && F32.leb dspTime f20
  then DSP
  else if F32.ltb gpuTime cpuTime && F32.leb gpuTime f20
  then GPU
  else CPU.

(** [cpuTime] is the constant [25.0f]; the other two times come from the
    backends. *)
Definition benchmarkAllDelegates (m : InferenceEngineManager)
    (modelPath : string) (bufferSize : nat) (sampleRate : Z) : DelegateType :=
  let dspTime := engine_benchmark (tfliteEngine_ m) in
  let gpuTime := engine_benchmark (onnxEngine_ m) in
  let cpuTime := f25 in
  selectDelegate dspTime gpuTime cpuTime.

Definition loadModel (m : InferenceEngineManager) (modelPath : string)
    (bufferSize : nat) (sampleRate : Z) : bool * InferenceEngineManager :=
  let m1 := if isModelLoaded_ m then unloadModel m else m in
  let type := determineModelType modelPath in
  let bestDelegate := benchmarkAllDelegates m1 modelPath bufferSize sampleRate in
  let '(loadSuccess, engine) :=
    match type with
    | ModelType.TFLITE =>
        (engine_loadModel (tfliteEngine_ m1) modelPath bufferSize sampleRate,
         EngineType.TFLITE)
    | ModelType.ONNX =>
        (engine_loadModel (onnxEngine_ m1) modelPath bufferSize sampleRate,
         EngineType.ONNX)
    | ModelType.UNKNOWN => (false, currentEngine_ m1)
    end in
  (loadSuccess,
   {| tfliteEngine_ := tfliteEngine_ m1;
      onnxEngine_ := onnxEngine_ m1;
      isModelLoaded_ := if loadSuccess then true else isModelLoaded_ m1;
      currentModelPath_ := modelPath;
      currentEngine_ := engine;
      currentDelegate_ := bestDelegate |}).

(** [runInference]: the buffer afterwards and the backends whose [run]
    was called.  The [try] block only guards the call of [run]; a backend
    is a total function on buffers here, so the [catch] branch has no
    counterpart.  The test on [currentDelegate_] has an empty body. *)
Definition runInference (m : InferenceEngineManager) (b : buffer)
    (numSamples : nat) : buffer * list EngineType.t :=
  if negb (isModelLoaded_ m) then (b, [])
  else
    match currentEngine_ m with
    | EngineType.TFLITE => (engine_run (tfliteEngine_ m) b numSamples, [EngineType.TFLITE])
    | EngineType.ONNX => (engine_run (onnxEngine_ m) b numSamples, [EngineType.ONNX])
    end.

(** The manager as constructed on the file's own backends, with no model
    loaded; the constructor does not set [currentEngine_] and
    [currentDelegate_], they are fixed here to [EngineType.TFLITE] and [CPU]. *)
Definition manager0 : InferenceEngineManager :=
  {| tfliteEngine_ := TFLiteEngine;
     onnxEngine_ := ONNXEngine;
     isModelLoaded_ := false;
     currentModelPath_ := "";
     currentEngine_ := EngineType.TFLITE;
     currentDelegate_ := CPU |}.

(** ** Definitions used to state the properties *)

(** A loop body that rewrites sample [i] from its own value only. *)
Definition pointwise_body (f : nat -> float -> float) (i : nat) (b : buffer)
    : option buffer :=
  x ← load b i; store b i (f i x).

(** [f] applied to the samples at indices [lo <= j < hi], the others kept. *)
Definition on_range (lo hi : nat) (f : nat -> float -> float)
    (j : nat) (x : float) : float :=
  if decide (lo <= j < hi)%nat then f j x else x.

(** What the gate does to one sample. *)
Definition gate_sample (x : float) : float :=
  if F32.ltb (F32.abs x) threshold then F32.zero else x.

(** One step of the smoothing recurrence, [x * 0.95f + yprev * 0.05f]:
    two products and a sum, each rounded to binary32. *)
Definition smooth_step (yprev x : float) : float :=
  F32.add (F32.mul x ns_alpha) (F32.mul yprev ns_beta).

(** The one-pole low-pass of the specification, by recursion on the
    input: [y[0] = x[0]], [y[i] = smooth_step y[i-1] x[i]]. *)
Fixpoint smooth_from (yprev : float) (xs : list float) : list float :=
  match xs with
  | [] => []
  | x :: xs' => let y := smooth_step yprev x in y :: smooth_from y xs'
  end.

Definition one_pole_lowpass (xs : list float) : list float :=
  match xs with
  | [] => []
  | x :: xs' => x :: smooth_from x xs'
  end.

(** The times of the three delegates, and their order of evaluation. *)
Definition latency (dspTime gpuTime cpuTime : float) (d : DelegateType)
    : float :=
  match d with DSP => dspTime | GPU => gpuTime | CPU => cpuTime end.

Definition priority (d : DelegateType) : nat :=
  match d with DSP => 0 | GPU => 1 | CPU => 2 end.

(** The ceiling check, [t <= 20.0f]. *)
Definition meets_ceiling (t : float) : bool := F32.leb t f20.

(** [d] has the lowest time among the delegates that meet the ceiling. *)
Definition lowest_within_ceiling (lat : DelegateType -> float)
    (d : DelegateType) : Prop :=
  meets_ceiling (lat d) = true
  /\ forall d', meets_ceiling (lat d') = true -> F32.leb (lat d) (lat d') = true.

(** The selection rule of the specification: the lowest time within the
    ceiling, the first such delegate in the order DSP, GPU, CPU when
    several are lowest, and CPU when no time is within the ceiling. *)
Definition selects_first_lowest (lat : DelegateType -> float)
    (d : DelegateType) : Prop :=
  ((exists d0, meets_ceiling (lat d0) = true) ->
     lowest_within_ceiling lat d
     /\ forall d', lowest_within_ceiling lat d' -> (priority d <= priority d')%nat)
  /\ ((forall d0, meets_ceiling (lat d0) = false) -> d = CPU).

(** The same rule with ties going to the last delegate in that order. *)
Definition selects_last_lowest (lat : DelegateType -> float)
    (d : DelegateType) : Prop :=
  ((exists d0, meets_ceiling (lat d0) = true) ->
     lowest_within_ceiling lat d
     /\ forall d', lowest_within_ceiling lat d' -> (priority d' <= priority d)%nat)
  /\ ((forall d0, meets_ceiling (lat d0) = false) -> d = CPU).

(** A key whose lexicographic order is the order of the comparisons on
    the floats that are not NaN. *)
Definition order_key (x : float) : Z * Z * Z :=
  match x with
  | S754_infinity true => (-2, 0, 0)%Z
  | S754_finite true m e => (-1, - e, Z.neg m)%Z
  | S754_zero _ => (0, 0, 0)%Z
  | S754_finite false m e => (1, e, Z.pos m)%Z
  | S754_infinity false => (2, 0, 0)%Z
  | S754_nan => (3, 0, 0)%Z
  end.

Definition key_lt (a b : Z * Z * Z) : Prop :=
  (a.1.1 < b.1.1
   \/ (a.1.1 = b.1.1
       /\ (a.1.2 < b.1.2 \/ (a.1.2 = b.1.2 /\ a.2 < b.2))))%Z.

(** [s] ends with [suffix]. *)
Definition has_suffix (suffix s : string) : Prop :=
  exists p, s = (p ++ suffix)%string.

(** A backend whose benchmark returns [t]. *)
Definition engine_with_benchmark (t : float) : Engine :=
  {| engine_loadModel := fun _ _ _ => true;
     engine_benchmark := t;
     engine_run := fun b _ => b |}.

(** A manager whose two backends both measure [15.0f]. *)
Definition manager_tied : InferenceEngineManager :=
  {| tfliteEngine_ := engine_with_benchmark f15;
     onnxEngine_ := engine_with_benchmark f15;
     isModelLoaded_ := false;
     currentModelPath_ := "";
     currentEngine_ := EngineType.TFLITE;
     currentDelegate_ := CPU |}.

(** [manager0] after a successful [loadModel("voice.tflite", 1024, 48000)]. *)
Definition manager_loaded : InferenceEngineManager :=
  snd (loadModel manager0 "voice.tflite" 1024 48000).

(** What the concealer does to sample [i] of a packet of [numSamples]. *)
Definition fade_sample (numSamples : nat) (i : nat) (x : float) : float :=
  F32.mul x (fade_gain i numSamples).

(** The invariant of the controller state. *)
Definition stability_invariant (lm : LockManager) : Prop :=
  (isPLCActive lm = true <-> isDegradationModeActive lm = true)
  /\ (isDegradationModeActive lm = true -> getCurrentPrecision lm = FP16)
  /\ (isDegradationModeActive lm = false -> getCurrentPrecision lm = FP32).

(** The sample a stage leaves where its input holds a NaN. *)
Definition nan_image (stage : AudioProcessor) : float :=
  match stage with
  | COMPRESSOR => limit
  | _ => S754_nan
  end.

(** ** The per-packet entry point ([rvc_engine.cpp]) *)

(** [LockManager::getInstance]: the singleton is created on first use.
    The argument is [instance_] ([None] for [nullptr]); the result is the
    instance returned and [instance_] afterwards. *)
Definition LockManager_getInstance (instance_ : option LockManager)
    : LockManager * option LockManager :=
  match instance_ with
  | None => (LockManager_new, Some LockManager_new)
  | Some lm => (lm, Some lm)
  end.

(** The file-level variables of the engine, with [LockManager::instance_];
    a pointer is [None] when it is [nullptr].  The shared buffer is the
    mapped region seen as an array of [float]. *)
Record NativeEngine : Type := {
  isEngineInitialized : bool;
  isRVCTransforming : bool;
  sharedBufferPtr : option buffer;
  ieManager : option InferenceEngineManager;
  fxGraph : option FXGraph;
  lockInstance : option LockManager
}.

(** [bytesRead / sizeof(float)]: the [jint] is converted to [size_t]
    (64 bits on the LP64 Android ABIs) before the unsigned division. *)
Definition numSamples_of_bytes (bytesRead : Z) : nat :=
  Z.to_nat ((bytesRead mod 2 ^ 64) / 4).

(** Outcome of [processAudioNative]: the [jboolean] returned, the
    variables afterwards, and the stage and backend calls made. *)
Record PacketOutcome : Type := {
  jni_result : bool;
  engine_after : NativeEngine;
  stage_calls : list AudioProcessor;
  backend_calls : list EngineType.t
}.

Definition with_buffer (e : NativeEngine) (b : buffer) (g : FXGraph)
    (inst : option LockManager) : NativeEngine :=
  {| isEngineInitialized := isEngineInitialized e;
     isRVCTransforming := isRVCTransforming e;
     sharedBufferPtr := Some b;
     ieManager := ieManager e;
     fxGraph := Some g;
     lockInstance := inst |}.

(** [Java_com_rvc_patch_ipc_IPCManager_processAudioNative].  The clock
    readings only feed a log line.  A dereference of a null [fxGraph] or
    [ieManager], like an access outside of the buffer, gives [None]. *)
Definition processAudioNative (e : NativeEngine) (bytesRead : Z)
    : option PacketOutcome :=
  match isEngineInitialized e, sharedBufferPtr e with
  | true, Some b =>
      let numSamples := numSamples_of_bytes bytesRead in
      if negb (isRVCTransforming e) then
        g ← fxGraph e;
        r ← applyLowPowerDSP g b numSamples;
        Some {| jni_result := true;
                engine_after :=
                  with_buffer e (fx_buffer r) (fx_graph r) (lockInstance e);
                stage_calls := fx_calls r;
                backend_calls := [] |}
      else
        g ← fxGraph e;
        r1 ← applyAcousticPreprocessing g b numSamples;
        m ← ieManager e;
        let '(b2, ran) := runInference m (fx_buffer r1) numSamples in
        let '(lm, inst) := LockManager_getInstance (lockInstance e) in
        r3 ← applyPostProcessing lm (fx_graph r1) b2 numSamples;
        Some {| jni_result := true;
                engine_after := with_buffer e (fx_buffer r3) (fx_graph r3) inst;
                stage_calls := fx_calls r1 ++ fx_calls r3;
                backend_calls := ran |}
  | _, _ =>
      Some {| jni_result := false;
              engine_after := e;
              stage_calls := [];
              backend_calls := [] |}
  end.

(** ** Definitions used to state further properties *)

(** The sample counts for which a stage stays inside a buffer of [len]
    samples: the suppressor starts at index 1, the switched-off concealer
    touches nothing. *)
Definition stays_inside (stage : AudioProcessor) (len n : nat) : Prop :=
  match stage with
  | NS => (n <= len \/ n <= 1)%nat
  | PLC {| isActive := false |} => True
  | _ => (n <= len)%nat
  end.

(** The two states of the controller. *)
Definition LockManager_degraded : LockManager :=
  {| isDegradationActive_ := true;
     isPLCActive_ := true;
     currentRVCPrecision_ := FP16 |}.

(** A packet of [k] samples of silence. *)
Definition silence (k : nat) : buffer := replicate k F32.zero.

(** An engine ready to process packets: initialised, with the buffer [b],
    the manager [m], a new graph and the controller instance [inst]. *)
Definition engine_ready (transforming : bool) (b : buffer)
    (m : InferenceEngineManager) (inst : option LockManager) : NativeEngine :=
  {| isEngineInitialized := true;
     isRVCTransforming := transforming;
     sharedBufferPtr := Some b;
     ieManager := Some m;
     fxGraph := Some (FXGraph_new 48000);
     lockInstance := inst |}.

(** ** The literals *)

(** Every constant above is the binary32 value of the literal in the
    source. *)
Lemma float_literals :
  threshold = F32.lit 5 1000
  /\ ns_alpha = F32.lit 95 100
  /\ ns_beta = F32.lit 5 100
  /\ limit = F32.lit 99 100
  /\ f15 = F32.lit 15 1 /\ f18 = F32.lit 18 1
  /\ f20 = F32.lit 20 1 /\ f25 = F32.lit 25 1
  /\ F32.one = F32.lit 1 1 /\ F32.zero = F32.of_Z 0.
Proof. repeat split; vm_compute; reflexivity. Qed.

(** [0.05f] is the binary32 value of the decimal [1 - 0.95]; it is not
    the binary32 difference [1.0f - 0.95f], which lies three units in the
    last place above it. *)
Remark ns_beta_not_float_difference :
  F32.sub F32.one ns_alpha = S754_finite false 13421776 (-28)
  /\ F32.sub F32.one ns_alpha <> ns_beta.
Proof. split; [reflexivity | discriminate]. Qed.

(** ** Loops *)

Lemma load_Some_lt (b : buffer) (i : nat) (x : float) :
  load b i = Some x -> (i < length b)%nat.
Proof. unfold load. apply lookup_lt_Some. Qed.

Lemma store_Some (b : buffer) (i : nat) (v : float) :
  (i < length b)%nat -> store b i v = Some (<[i := v]> b).
Proof. intros H. unfold store. by rewrite decide_True. Qed.

Lemma for_loop_ext (body1 body2 : nat -> buffer -> option buffer) :
  (forall i b, body1 i b = body2 i b) ->
  forall count i b, for_loop count i body1 b = for_loop count i body2 b.
Proof.
  intros Hext count. induction count as [|count IH]; intros i b; simpl.
  - reflexivity.
  - rewrite Hext. destruct (body2 i b) as [b'|]; simpl; [apply IH | reflexivity].
Qed.

Lemma pointwise_body_Some (f : nat -> float -> float) (i : nat)
    (b : buffer) (x : float) :
  b !! i = Some x -> pointwise_body f i b = Some (<[i := f i x]> b).
Proof.
  intros Hx. unfold pointwise_body, load. rewrite Hx. simpl.
  apply store_Some. eapply lookup_lt_Some. eassumption.
Qed.

Lemma for_loop_pointwise (f : nat -> float -> float) (count : nat) :
  forall (i : nat) (b : buffer),
    (i + count <= length b)%nat ->
    for_loop count i (pointwise_body f) b
    = Some (imap (on_range i (i + count) f) b).
Proof.
  induction count as [|count IH]; intros i b Hlen; simpl.
  - f_equal. apply list_eq. intros j. rewrite list_lookup_imap.
    destruct (b !! j) as [x|]; simpl; [|reflexivity].
    unfold on_range. rewrite decide_False by lia. reflexivity.
  - destruct (lookup_lt_is_Some_2 b i ltac:(lia)) as [x Hx].
    rewrite (pointwise_body_Some f i b x Hx). simpl.
    rewrite IH by (rewrite length_insert; lia).
    f_equal. apply list_eq. intros j. rewrite !list_lookup_imap.
    destruct (decide (i = j)) as [->|Hne].
    + rewrite list_lookup_insert_eq by lia. rewrite Hx. simpl.
      unfold on_range. rewrite decide_False by lia.
      rewrite decide_True by lia. reflexivity.
    + rewrite list_lookup_insert_ne by done.
      destruct (b !! j) as [y|]; simpl; [|reflexivity].
      unfold on_range. do 2 case_decide; try reflexivity; lia.
Qed.

Lemma for_loop_pointwise_lookup (f : nat -> float -> float)
    (n : nat) (b out : buffer) :
  for_loop n 0 (pointwise_body f) b = Some out ->
  (n <= length b)%nat ->
  length out = length b
  /\ (forall i, (i < n)%nat -> out !! i = f i <$> b !! i)
  /\ (forall i, (n <= i)%nat -> out !! i = b !! i).
Proof.
  intros Hrun Hlen. rewrite for_loop_pointwise in Hrun by lia.
  injection Hrun as <-. split; [apply length_imap|].
  split; intros i Hi; rewrite list_lookup_imap;
    destruct (b !! i) as [x|]; simpl; try reflexivity; unfold on_range.
  - rewrite decide_True by lia. reflexivity.
  - rewrite decide_False by lia. reflexivity.
Qed.

Lemma aec_body_pointwise (i : nat) (b : buffer) :
  aec_body i b = pointwise_body (fun _ => gate_sample) i b.
Proof.
  unfold aec_body, pointwise_body, gate_sample.
  destruct (load b i) as [x|] eqn:Hx; simpl; [|reflexivity].
  destruct (F32.ltb (F32.abs x) threshold); [reflexivity|].
  rewrite store_Some by (eapply load_Some_lt; eassumption).
  f_equal. symmetry. by apply list_insert_id.
Qed.

Lemma ns_body_Some (b : buffer) (i : nat) (x p : float) :
  b !! i = Some x -> b !! (i - 1)%nat = Some p ->
  ns_body i b = Some (<[i := smooth_step p x]> b).
Proof.
  intros Hx Hp. unfold ns_body, load. rewrite Hx. simpl. rewrite Hp. simpl.
  apply store_Some. eapply lookup_lt_Some. eassumption.
Qed.

Lemma ns_body_step (pre : list float) (p x : float) (tl : list float) :
  ns_body (S (length pre)) (pre ++ p :: x :: tl)
  = Some (pre ++ p :: smooth_step p x :: tl).
Proof.
  rewrite (ns_body_Some _ _ x p).
  - f_equal. rewrite insert_app_r_alt by lia.
    replace (S (length pre) - length pre)%nat with 1%nat by lia. reflexivity.
  - rewrite lookup_app_r by lia.
    replace (S (length pre) - length pre)%nat with 1%nat by lia. reflexivity.
  - replace (S (length pre) - 1)%nat with (length pre) by lia.
    by apply list_lookup_middle.
Qed.

Lemma smooth_loop (xs : list float) :
  forall (pre : list float) (p : float) (rest : list float),
    for_loop (length xs) (S (length pre)) ns_body (pre ++ p :: xs ++ rest)
    = Some (pre ++ p :: smooth_from p xs ++ rest).
Proof.
  induction xs as [|x xs IH]; intros pre p rest; simpl.
  - reflexivity.
  - rewrite ns_body_step. simpl.
    specialize (IH (pre ++ [p]) (smooth_step p x) rest).
    rewrite length_app in IH. simpl in IH.
    replace (length pre + 1)%nat with (S (length pre)) in IH by lia.
    rewrite <- !app_assoc in IH. simpl in IH. exact IH.
Qed.

Lemma NoiseSuppressor_process_prefix (b : buffer) (n : nat) :
  (n <= length b)%nat ->
  NoiseSuppressor_process b n = Some (one_pole_lowpass (take n b) ++ drop n b).
Proof.
  intros Hn. unfold NoiseSuppressor_process.
  destruct n as [|n]; simpl.
  - rewrite drop_0. reflexivity.
  - destruct b as [|x b]; simpl in *; [lia|].
    rewrite Nat.sub_0_r.
    pose proof (smooth_loop (take n b) [] x (drop n b)) as H.
    rewrite length_take in H. rewrite Nat.min_l in H by lia.
    simpl in H. rewrite take_drop in H. exact H.
Qed.

Lemma NoiseSuppressor_process_whole (b : buffer) :
  NoiseSuppressor_process b (length b) = Some (one_pole_lowpass b).
Proof.
  rewrite NoiseSuppressor_process_prefix by lia.
  rewrite firstn_all, drop_all, app_nil_r. reflexivity.
Qed.

Lemma smooth_from_length (xs : list float) :
  forall p, length (smooth_from p xs) = length xs.
Proof. induction xs as [|x xs IH]; intros p; simpl; [|rewrite IH]; reflexivity. Qed.

Lemma one_pole_lowpass_length (xs : list float) :
  length (one_pole_lowpass xs) = length xs.
Proof. destruct xs; simpl; [|rewrite smooth_from_length]; reflexivity. Qed.

Lemma smooth_from_recurrence (xs : list float) :
  forall (p : float) (i : nat) (xi yp : float),
    (p :: xs) !! S i = Some xi ->
    (p :: smooth_from p xs) !! i = Some yp ->
    (p :: smooth_from p xs) !! S i = Some (smooth_step yp xi).
Proof.
  induction xs as [|x xs IH]; intros p i xi yp Hx Hy.
  - destruct i; discriminate.
  - destruct i as [|i]; simpl in *.
    + congruence.
    + eapply IH; eassumption.
Qed.

Lemma smooth_from_nan (xs : list float) :
  forall (p : float) (i : nat),
    xs !! i = Some S754_nan -> smooth_from p xs !! i = Some S754_nan.
Proof.
  induction xs as [|x xs IH]; intros p i Hi; [discriminate|].
  destruct i as [|i]; simpl in *.
  - injection Hi as ->. reflexivity.
  - apply IH. exact Hi.
Qed.

(** ** The limiter on one sample *)

Lemma compare_between_abs (x : float) (mL : positive) (eL : Z) :
  SFltb x (S754_finite false mL eL) = true ->
  SFltb (SFopp (S754_finite false mL eL)) x = true ->
  SFleb (SFabs x) (S754_finite false mL eL) = true.
Proof.
  unfold SFltb, SFleb.
  destruct x as [s|s| |s m e]; simpl.
  - reflexivity.
  - destruct s; discriminate.
  - discriminate.
  - destruct s; simpl.
    + intros _. rewrite (Z.compare_antisym e eL).
      change (Pos.compare_cont Eq mL m) with (Pos.compare mL m).
      change (Pos.compare_cont Eq m mL) with (Pos.compare m mL).
      rewrite (Pos.compare_antisym m mL).
      destruct (e ?= eL)%Z; simpl; try discriminate; try reflexivity.
      destruct (m ?= mL)%positive; simpl; try discriminate; reflexivity.
    + intros H _. destruct (e ?= eL)%Z; try discriminate; try reflexivity.
      destruct (Pos.compare_cont Eq m mL); try discriminate; reflexivity.
Qed.

Lemma limiter_sample_cases (x : float) :
  (limiter_sample x = x
   /\ F32.ltb x limit = true /\ F32.ltb (F32.opp limit) x = true)
  \/ limiter_sample x = limit
  \/ limiter_sample x = F32.opp limit.
Proof.
  unfold limiter_sample, F32.min, F32.max.
  destruct (F32.ltb x limit) eqn:Hhi.
  - destruct (F32.ltb (F32.opp limit) x) eqn:Hlo; auto.
  - right. left. reflexivity.
Qed.

Lemma limiter_sample_bounded (x : float) :
  F32.leb (F32.abs (limiter_sample x)) limit = true.
Proof.
  destruct (limiter_sample_cases x) as [(-> & Hhi & Hlo)|[->| ->]].
  - apply compare_between_abs; assumption.
  - reflexivity.
  - reflexivity.
Qed.

Lemma limiter_sample_idempotent (x : float) :
  limiter_sample (limiter_sample x) = limiter_sample x.
Proof.
  destruct (limiter_sample_cases x) as [(Hx & Hhi & Hlo)|[->| ->]].
  - rewrite Hx. exact Hx.
  - reflexivity.
  - reflexivity.
Qed.

Lemma limiter_sample_nan : limiter_sample S754_nan = limit.
Proof. reflexivity. Qed.

Lemma limiter_sample_not_nan (x : float) : F32.is_nan (limiter_sample x) = false.
Proof.
  destruct (limiter_sample_cases x) as [(-> & Hhi & Hlo)|[->| ->]];
    try reflexivity.
  destruct x; try reflexivity. discriminate.
Qed.

(** ** Order of the comparisons *)

Lemma pos_compare_cont_Eq (p q : positive) :
  Pos.compare_cont Eq p q = (p ?= q)%positive.
Proof. reflexivity. Qed.

Lemma SFcompare_key (x y : float) :
  F32.is_nan x = false -> F32.is_nan y = false ->
  exists c, SFcompare x y = Some c
    /\ (c = Lt <-> key_lt (order_key x) (order_key y))
    /\ (c = Gt <-> key_lt (order_key y) (order_key x)).
Proof.
  intros Hx Hy.
  destruct x as [sx|sx| |sx mx ex]; try discriminate;
  destruct y as [sy|sy| |sy my ey]; try discriminate;
  try destruct sx; try destruct sy; simpl;
  eexists; (split; [reflexivity|]); unfold key_lt; simpl;
  rewrite ?pos_compare_cont_Eq;
  try (split; split; intros Hcmp; first [discriminate | reflexivity | lia]).
  all: destruct (Z.compare_spec ex ey); simpl;
    try destruct (Pos.compare_spec mx my); simpl;
    (split; split; intros Hcmp; first [discriminate | reflexivity | lia]).
Qed.

Lemma ltb_key (x y : float) :
  F32.is_nan x = false -> F32.is_nan y = false ->
  (F32.ltb x y = true <-> key_lt (order_key x) (order_key y)).
Proof.
  intros Hx Hy. destruct (SFcompare_key x y Hx Hy) as (c & Hc & Hlt & Hgt).
  unfold F32.ltb, SFltb. rewrite Hc. rewrite <- Hlt.
  destruct c; split; intros; congruence.
Qed.

Lemma leb_key (x y : float) :
  F32.is_nan x = false -> F32.is_nan y = false ->
  (F32.leb x y = true <-> ~ key_lt (order_key y) (order_key x)).
Proof.
  intros Hx Hy. destruct (SFcompare_key x y Hx Hy) as (c & Hc & Hlt & Hgt).
  unfold F32.leb, SFleb. rewrite Hc. rewrite <- Hgt.
  destruct c; split; intros; congruence.
Qed.

(** ** Delegate selection *)

Lemma selectDelegate_cases (dspTime gpuTime cpuTime : float) :
  (selectDelegate dspTime gpuTime cpuTime = DSP
   /\ F32.ltb dspTime gpuTime = true /\ F32.ltb dspTime cpuTime = true
   /\ F32.leb dspTime f20 = true)
  \/ (selectDelegate dspTime gpuTime cpuTime = GPU
      /\ (F32.ltb dspTime gpuTime = false \/ F32.ltb dspTime cpuTime = false
          \/ F32.leb dspTime f20 = false)
      /\ F32.ltb gpuTime cpuTime = true /\ F32.leb gpuTime f20 = true)
  \/ (selectDelegate dspTime gpuTime cpuTime = CPU
      /\ (F32.ltb dspTime gpuTime = false \/ F32.ltb dspTime cpuTime = false
          \/ F32.leb dspTime f20 = false)
      /\ (F32.ltb gpuTime cpuTime = false \/ F32.leb gpuTime f20 = false)).
Proof.
  unfold selectDelegate.
  destruct (F32.ltb dspTime gpuTime), (F32.ltb dspTime cpuTime),
    (F32.leb dspTime f20), (F32.ltb gpuTime cpuTime), (F32.leb gpuTime f20);
    simpl; tauto.
Qed.

Ltac to_keys Hd Hg Hc :=
  unfold meets_ceiling in *;
  repeat match goal with
  | H : F32.ltb ?a ?b = true |- _ =>
      apply ltb_key in H; [|first [exact Hd|exact Hg|exact Hc|reflexivity]..]
  | H : F32.leb ?a ?b = true |- _ =>
      apply leb_key in H; [|first [exact Hd|exact Hg|exact Hc|reflexivity]..]
  | H : F32.ltb ?a ?b = false |- _ =>
      apply not_true_iff_false in H;
      rewrite ltb_key in H by first [exact Hd|exact Hg|exact Hc|reflexivity]
  | H : F32.leb ?a ?b = false |- _ =>
      apply not_true_iff_false in H;
      rewrite leb_key in H by first [exact Hd|exact Hg|exact Hc|reflexivity]
  | |- F32.leb ?a ?b = true =>
      apply leb_key; [first [exact Hd|exact Hg|exact Hc|reflexivity]..|]
  end.

Ltac order_solve Hd Hg Hc :=
  simpl in *;
  repeat match goal with H : _ \/ _ |- _ => destruct H end;
  to_keys Hd Hg Hc;
  try match goal with |- _ = _ => exfalso end;
  try match goal with |- (_ <= _)%nat => exfalso end;
  repeat match goal with
  | |- context [order_key ?x] =>
      is_var x; destruct (order_key x) as [[? ?] ?]
  | H : context [order_key ?x] |- _ =>
      is_var x; destruct (order_key x) as [[? ?] ?]
  end;
  unfold key_lt in *; simpl in *; lia.

(** C1 (amended): on three times that are numbers, the comparison chain
    returns a delegate with the lowest time among those within the 20 ms
    ceiling, the last one in the order DSP, GPU, CPU when several are
    lowest, and CPU when no time is within the ceiling. *)
Theorem selectDelegate_lowest_last (dspTime gpuTime cpuTime : float) :
  F32.is_nan dspTime = false ->
  F32.is_nan gpuTime = false ->
  F32.is_nan cpuTime = false ->
  selects_last_lowest (latency dspTime gpuTime cpuTime)
    (selectDelegate dspTime gpuTime cpuTime).
Proof.
  intros Hd Hg Hc.
  pose proof (selectDelegate_cases dspTime gpuTime cpuTime) as Hsel.
  unfold selects_last_lowest, lowest_within_ceiling.
  split.
  - intros [d0 Hd0].
    assert (Hany : meets_ceiling dspTime = true \/ meets_ceiling gpuTime = true
                   \/ meets_ceiling cpuTime = true)
      by (destruct d0; simpl in Hd0; tauto).
    clear d0 Hd0.
    assert (Hmeets : meets_ceiling (latency dspTime gpuTime cpuTime
                       (selectDelegate dspTime gpuTime cpuTime)) = true).
    { destruct Hsel as [(-> & H1 & H2 & H3)|[(-> & H1 & H2 & H3)|(-> & H1 & H2)]];
        simpl; [exact H3 | exact H3 |].
      destruct (meets_ceiling cpuTime) eqn:Hcpu; [reflexivity|].
      order_solve Hd Hg Hc. }
    split; [split; [exact Hmeets|]|].
    + intros d' Hd'.
      destruct Hsel as [(-> & H1 & H2 & H3)|[(-> & H1 & H2 & H3)|(-> & H1 & H2)]];
        destruct d'; clear Hany; order_solve Hd Hg Hc.
    + intros d' [Hm Hlow]. specialize (Hlow _ Hmeets). clear Hany.
      destruct Hsel as [(E & H1 & H2 & H3)|[(E & H1 & H2 & H3)|(E & H1 & H2)]];
        rewrite E in *; clear E;
        destruct d'; simpl; try lia; order_solve Hd Hg Hc.
  - intros Hnone.
    destruct Hsel as [(-> & H1 & H2 & H3)|[(-> & H1 & H2 & H3)|(-> & H1 & H2)]].
    + specialize (Hnone DSP). unfold meets_ceiling in Hnone. simpl in Hnone.
      congruence.
    + specialize (Hnone GPU). unfold meets_ceiling in Hnone. simpl in Hnone.
      congruence.
    + reflexivity.
Qed.

(** C1 (counterexample): with DSP and GPU both measured at 15 ms and the
    CPU time of 25 ms, the first of the two lowest delegates is DSP, and
    the manager returns GPU. *)
Lemma benchmarkAllDelegates_tie_not_first :
  benchmarkAllDelegates manager_tied "voice.tflite" 1024 48000 = GPU
  /\ selects_first_lowest (latency f15 f15 f25) DSP
  /\ ~ selects_first_lowest (latency f15 f15 f25)
         (benchmarkAllDelegates manager_tied "voice.tflite" 1024 48000).
Proof.
  assert (Hlow : lowest_within_ceiling (latency f15 f15 f25) DSP).
  { split; [reflexivity|]. intros d' _. destruct d'; reflexivity. }
  split; [reflexivity|]. split.
  - split.
    + intros _. split; [exact Hlow|]. intros d' _. simpl. lia.
    + intros Hnone. specialize (Hnone DSP). discriminate.
  - intros [Hsel _].
    destruct Hsel as [_ Hfirst]; [exists DSP; reflexivity|].
    specialize (Hfirst DSP Hlow).
    change (benchmarkAllDelegates manager_tied "voice.tflite" 1024 48000)
      with GPU in Hfirst.
    simpl in Hfirst. lia.
Qed.

Lemma selectDelegate_lowest_last_witness :
  selects_last_lowest (latency f15 f18 f25) (selectDelegate f15 f18 f25).
Proof. apply selectDelegate_lowest_last; reflexivity. Defined.

(** The two selections worked out in the specification: 15, 18 and 25 ms
    give DSP (these are the times of the backends in the file); 25, 22 and
    25 ms give CPU. *)
Example benchmarkAllDelegates_manager0 :
  benchmarkAllDelegates manager0 "voice.tflite" 1024 48000 = DSP.
Proof. reflexivity. Qed.

Example selectDelegate_all_above_ceiling :
  selectDelegate f25 (F32.lit 22 1) f25 = CPU.
Proof. reflexivity. Qed.

(** ** Model format and [loadModel] *)

Lemma substring_all (s : string) : String.substring 0 (String.length s) s = s.
Proof. induction s as [|c s IH]; simpl; [|rewrite IH]; reflexivity. Qed.

Lemma substring_split (s : string) :
  forall n, (n <= String.length s)%nat ->
    s = (String.substring 0 n s ++ substr s n)%string.
Proof.
  unfold substr.
  induction s as [|c s IH]; intros n Hn; simpl in *.
  - assert (n = 0%nat) as -> by lia. reflexivity.
  - destruct n as [|n]; simpl.
    + rewrite substring_all. reflexivity.
    + f_equal. apply IH. lia.
Qed.

Lemma substr_suffix (s suffix : string) (k : nat) :
  (k <=? String.length s)%nat
    && String.eqb (substr s (String.length s - k)) suffix = true ->
  has_suffix suffix s.
Proof.
  intros H. apply andb_prop in H as [_ Heq].
  apply String.eqb_eq in Heq.
  exists (String.substring 0 (String.length s - k) s).
  rewrite <- Heq. apply substring_split. lia.
Qed.

Lemma determineModelType_unknown (path : string) :
  ~ has_suffix ".tflite" path -> ~ has_suffix ".onnx" path ->
  determineModelType path = ModelType.UNKNOWN.
Proof.
  intros Ht Ho. unfold determineModelType.
  destruct ((7 <=? String.length path)%nat && _) eqn:E1.
  - exfalso. apply Ht. eapply substr_suffix. exact E1.
  - destruct ((5 <=? String.length path)%nat && _) eqn:E2.
    + exfalso. apply Ho. eapply substr_suffix. exact E2.
    + reflexivity.
Qed.

(** C2 (amended): when a model is loaded and the path ends neither in
    [.tflite] nor in [.onnx], [loadModel] returns failure and the manager
    ends with no model loaded; the active engine and the two backends are
    the ones from before the call. *)
Theorem loadModel_unknown_unloads (m : InferenceEngineManager)
    (path : string) (bufferSize : nat) (sampleRate : Z) :
  isModelLoaded_ m = true ->
  ~ has_suffix ".tflite" path -> ~ has_suffix ".onnx" path ->
  let r := loadModel m path bufferSize sampleRate in
  r.1 = false
  /\ isModelLoaded_ r.2 = false
  /\ currentEngine_ r.2 = currentEngine_ m
  /\ tfliteEngine_ r.2 = tfliteEngine_ m
  /\ onnxEngine_ r.2 = onnxEngine_ m.
Proof.
  intros Hloaded Ht Ho. unfold loadModel.
  rewrite (determineModelType_unknown path Ht Ho), Hloaded. simpl.
  repeat split; reflexivity.
Qed.

Lemma string_length_app (s1 s2 : string) :
  String.length (s1 ++ s2) = (String.length s1 + String.length s2)%nat.
Proof. induction s1 as [|c s1 IH]; simpl; [|rewrite IH]; reflexivity. Qed.

Lemma xyz_not_tflite : ~ has_suffix ".tflite" "voice.xyz".
Proof.
  intros [p Hp].
  assert (Hlen : String.length "voice.xyz" = String.length (p ++ ".tflite")%string)
    by (rewrite <- Hp; reflexivity).
  rewrite string_length_app in Hlen. simpl in Hlen.
  do 3 (destruct p as [|? p]; simpl in Hlen; try lia).
  discriminate.
Qed.

Lemma xyz_not_onnx : ~ has_suffix ".onnx" "voice.xyz".
Proof.
  intros [p Hp].
  assert (Hlen : String.length "voice.xyz" = String.length (p ++ ".onnx")%string)
    by (rewrite <- Hp; reflexivity).
  rewrite string_length_app in Hlen. simpl in Hlen.
  do 5 (destruct p as [|? p]; simpl in Hlen; try lia).
  discriminate.
Qed.

Lemma loadModel_unknown_unloads_witness :
  let r := loadModel manager_loaded "voice.xyz" 1024 48000 in
  r.1 = false
  /\ isModelLoaded_ r.2 = false
  /\ currentEngine_ r.2 = currentEngine_ manager_loaded
  /\ tfliteEngine_ r.2 = tfliteEngine_ manager_loaded
  /\ onnxEngine_ r.2 = onnxEngine_ manager_loaded.
Proof.
  apply loadModel_unknown_unloads;
    [reflexivity | exact xyz_not_tflite | exact xyz_not_onnx].
Defined.

(** C2 (counterexample): with ["voice.tflite"] loaded, [loadModel] on
    ["voice.xyz"] fails and changes the manager: no model is loaded
    afterwards and the recorded path is the new one. *)
Lemma loadModel_unknown_changes_state :
  isModelLoaded_ manager_loaded = true
  /\ determineModelType "voice.xyz" = ModelType.UNKNOWN
  /\ (loadModel manager_loaded "voice.xyz" 1024 48000).1 = false
  /\ isModelLoaded_ (loadModel manager_loaded "voice.xyz" 1024 48000).2 = false
  /\ (loadModel manager_loaded "voice.xyz" 1024 48000).2 <> manager_loaded.
Proof.
  repeat split; try reflexivity.
  intros H. apply (f_equal isModelLoaded_) in H. discriminate.
Qed.

(** ** The stages on whole buffers *)

Lemma AcousticEchoCanceller_process_pointwise (b : buffer) (n : nat) :
  AcousticEchoCanceller_process b n
  = for_loop n 0 (pointwise_body (fun _ => gate_sample)) b.
Proof. apply for_loop_ext. apply aec_body_pointwise. Qed.

Lemma MultibandCompressor_process_pointwise (b : buffer) (n : nat) :
  MultibandCompressor_process b n
  = for_loop n 0 (pointwise_body (fun _ => limiter_sample)) b.
Proof. reflexivity. Qed.

Lemma PacketLossConcealer_process_pointwise (b : buffer) (n : nat) :
  PacketLossConcealer_process {| isActive := true |} b n
  = for_loop n 0 (pointwise_body (fade_sample n)) b.
Proof. reflexivity. Qed.

Lemma MultibandCompressor_process_Some (b : buffer) (n : nat) :
  (n <= length b)%nat ->
  MultibandCompressor_process b n
  = Some (imap (on_range 0 n (fun _ => limiter_sample)) b).
Proof.
  intros Hn. rewrite MultibandCompressor_process_pointwise.
  rewrite for_loop_pointwise by lia. reflexivity.
Qed.

Lemma PacketLossConcealer_process_Some (b : buffer) (n : nat) :
  (n <= length b)%nat ->
  PacketLossConcealer_process {| isActive := true |} b n
  = Some (imap (on_range 0 n (fade_sample n)) b).
Proof.
  intros Hn. rewrite PacketLossConcealer_process_pointwise.
  rewrite for_loop_pointwise by lia. reflexivity.
Qed.

(** C4: the limiter writes, at every index below [numSamples], the image
    of the sample read there under [limiter_sample], a function of that
    sample alone, and this image [y] satisfies [|y| <= 0.99f]; the other
    samples are kept. *)
Theorem MultibandCompressor_process_bounded (b : buffer) (n : nat) :
  (n <= length b)%nat ->
  exists out,
    MultibandCompressor_process b n = Some out
    /\ length out = length b
    /\ (forall i, (i < n)%nat -> out !! i = limiter_sample <$> b !! i)
    /\ (forall i y, (i < n)%nat -> out !! i = Some y ->
          F32.leb (F32.abs y) limit = true)
    /\ (forall i, (n <= i)%nat -> out !! i = b !! i).
Proof.
  intros Hn.
  destruct (for_loop n 0 (pointwise_body (fun _ => limiter_sample)) b)
    as [out|] eqn:Hrun.
  2: { rewrite for_loop_pointwise in Hrun by lia. discriminate. }
  exists out. rewrite MultibandCompressor_process_pointwise.
  destruct (for_loop_pointwise_lookup _ n b out Hrun Hn) as (Hlen & Hin & Hout).
  repeat split; try assumption.
  intros i y Hi Hy. rewrite (Hin i Hi) in Hy.
  destruct (b !! i) as [x|]; simpl in Hy; [|discriminate].
  injection Hy as <-. apply limiter_sample_bounded.
Qed.

Lemma MultibandCompressor_process_bounded_witness :
  exists out,
    MultibandCompressor_process [S754_nan; F32.of_Z 3; F32.lit 1 2] 2 = Some out
    /\ length out = 3%nat
    /\ (forall i, (i < 2)%nat ->
          out !! i = limiter_sample <$> [S754_nan; F32.of_Z 3; F32.lit 1 2] !! i)
    /\ (forall i y, (i < 2)%nat -> out !! i = Some y ->
          F32.leb (F32.abs y) limit = true)
    /\ (forall i, (2 <= i)%nat ->
          out !! i = [S754_nan; F32.of_Z 3; F32.lit 1 2] !! i).
Proof.
  apply (MultibandCompressor_process_bounded
           [S754_nan; F32.of_Z 3; F32.lit 1 2] 2).
  simpl. lia.
Defined.

(** C10: running the limiter a second time on its own output gives that
    output again. *)
Theorem MultibandCompressor_process_idempotent (b : buffer) (n : nat) :
  (n <= length b)%nat ->
  exists out,
    MultibandCompressor_process b n = Some out
    /\ MultibandCompressor_process out n = Some out.
Proof.
  intros Hn. eexists. split.
  - apply MultibandCompressor_process_Some. exact Hn.
  - rewrite MultibandCompressor_process_Some by (rewrite length_imap; exact Hn).
    f_equal. apply list_eq. intros i. rewrite !list_lookup_imap.
    destruct (b !! i) as [x|]; simpl; [|reflexivity].
    f_equal. unfold on_range. case_decide; [|reflexivity].
    apply limiter_sample_idempotent.
Qed.

Lemma MultibandCompressor_process_idempotent_witness :
  exists out,
    MultibandCompressor_process [S754_nan; F32.of_Z 3; F32.lit 1 2] 3 = Some out
    /\ MultibandCompressor_process out 3 = Some out.
Proof.
  apply (MultibandCompressor_process_idempotent
           [S754_nan; F32.of_Z 3; F32.lit 1 2] 3).
  simpl. lia.
Defined.

(** C6: on a buffer [x] of length [n] the noise suppressor makes no
    access outside of the buffer and returns the one-pole low-pass [y] of
    the specification: [y[0] = x[0]] and
    [y[i+1] = x[i+1] * 0.95f + y[i] * 0.05f], the coefficients being the
    binary32 values of [0.95] and of [1 - 0.95]; a buffer of length 0 or 1
    is returned as it is. *)
Theorem NoiseSuppressor_process_recurrence (x : buffer) :
  exists y,
    NoiseSuppressor_process x (length x) = Some y
    /\ y = one_pole_lowpass x
    /\ length y = length x
    /\ y !! 0%nat = x !! 0%nat
    /\ (forall i xi yp,
          x !! S i = Some xi -> y !! i = Some yp ->
          y !! S i = Some (F32.add (F32.mul xi ns_alpha) (F32.mul yp ns_beta)))
    /\ ((length x <= 1)%nat -> y = x)
    /\ ns_alpha = F32.lit 95 100
    /\ ns_beta = F32.lit (100 - 95) 100.
Proof.
  exists (one_pole_lowpass x).
  split; [apply NoiseSuppressor_process_whole|].
  split; [reflexivity|].
  split; [apply one_pole_lowpass_length|].
  split; [destruct x; reflexivity|].
  split.
  { intros i xi yp Hx Hy. destruct x as [|x0 xs]; [discriminate|].
    simpl in *. apply (smooth_from_recurrence xs x0 i xi yp Hx Hy). }
  split.
  { intros Hlen. destruct x as [|x0 [|x1 xs]]; simpl in *;
      [reflexivity | reflexivity | lia]. }
  split; reflexivity.
Qed.

Lemma one_pole_lowpass_nan (b : list float) (i : nat) :
  b !! i = Some S754_nan -> one_pole_lowpass b !! i = Some S754_nan.
Proof.
  destruct b as [|x xs]; [discriminate|].
  destruct i as [|i]; simpl; [trivial|]. apply smooth_from_nan.
Qed.

Lemma pointwise_whole (f : nat -> float -> float) (b : buffer) :
  for_loop (length b) 0 (pointwise_body f) b = Some (imap f b).
Proof.
  rewrite for_loop_pointwise by lia. f_equal. apply list_eq. intros i.
  rewrite !list_lookup_imap.
  destruct (b !! i) as [x|] eqn:Hx; simpl; [|reflexivity].
  apply lookup_lt_Some in Hx.
  unfold on_range. rewrite decide_True by lia. reflexivity.
Qed.

(** C7 (counterexample): the limiter turns a buffer holding one NaN into
    a buffer holding [0.99f]; the buffer is not left as it was. *)
Lemma compressor_rewrites_nan :
  process COMPRESSOR [S754_nan] 1 = Some [limit]
  /\ ~ (forall (stage : AudioProcessor) (b : buffer),
          (exists i, b !! i = Some S754_nan) ->
          process stage b (length b) = Some b).
Proof.
  split; [reflexivity|].
  intros H. specialize (H COMPRESSOR [S754_nan]).
  assert (Hnan : exists i : nat, [S754_nan] !! i = Some S754_nan)
    by (exists 0%nat; reflexivity).
  specialize (H Hnan). discriminate.
Qed.

(** C7 (amended): every stage returns normally on every buffer, with a
    buffer of the same length, and does not look for NaN: a NaN sample is
    still NaN after the gate, the noise suppressor and the concealer, and
    is [0.99f] after the limiter. *)
Theorem process_total_nan (stage : AudioProcessor) (b : buffer) :
  exists out,
    process stage b (length b) = Some out
    /\ length out = length b
    /\ (forall i, b !! i = Some S754_nan ->
          out !! i = Some (nan_image stage)).
Proof.
  destruct stage as [| | |[active]]; simpl.
  - rewrite AcousticEchoCanceller_process_pointwise, pointwise_whole.
    eexists; split; [reflexivity|]. split; [apply length_imap|].
    intros i Hi. rewrite list_lookup_imap, Hi. reflexivity.
  - rewrite NoiseSuppressor_process_whole.
    eexists; split; [reflexivity|]. split; [apply one_pole_lowpass_length|].
    apply one_pole_lowpass_nan.
  - rewrite MultibandCompressor_process_pointwise, pointwise_whole.
    eexists; split; [reflexivity|]. split; [apply length_imap|].
    intros i Hi. rewrite list_lookup_imap, Hi. reflexivity.
  - destruct active.
    + rewrite PacketLossConcealer_process_pointwise, pointwise_whole.
      eexists; split; [reflexivity|]. split; [apply length_imap|].
      intros i Hi. rewrite list_lookup_imap, Hi. reflexivity.
    + exists b. repeat split; trivial.
Qed.

(** ** Post-processing *)

(** C5: on an initialised graph, post-processing decides on
    [isPLCActive()] alone.  When it is set, the only [process] call is the
    concealer's and the buffer is the concealer's output; when it is
    clear, the only [process] call is the limiter's, the buffer is the
    limiter's output, and the concealer is switched off. *)
Theorem applyPostProcessing_branches (lm : LockManager) (g : FXGraph)
    (b : buffer) (n : nat) :
  isInitialized_ g = true ->
  (n <= length b)%nat ->
  exists r,
    applyPostProcessing lm g b n = Some r
    /\ (if isPLCActive lm
        then fx_calls r = [PLC {| isActive := true |}]
             /\ PacketLossConcealer_process {| isActive := true |} b n
                = Some (fx_buffer r)
             /\ fx_buffer r = imap (on_range 0 n (fade_sample n)) b
             /\ ~ In COMPRESSOR (fx_calls r)
             /\ isActive (plc_ (fx_graph r)) = true
        else fx_calls r = [COMPRESSOR]
             /\ MultibandCompressor_process b n = Some (fx_buffer r)
             /\ fx_buffer r = imap (on_range 0 n (fun _ => limiter_sample)) b
             /\ (forall p, ~ In (PLC p) (fx_calls r))
             /\ isActive (plc_ (fx_graph r)) = false).
Proof.
  intros Hinit Hn. unfold applyPostProcessing. rewrite Hinit. simpl.
  destruct (isPLCActive lm).
  - unfold PacketLossConcealer_activate.
    rewrite PacketLossConcealer_process_Some by exact Hn. simpl.
    eexists; split; [reflexivity|]. simpl.
    split_and!; try reflexivity.
    intros [Hin|[]]. discriminate.
  - rewrite MultibandCompressor_process_Some by exact Hn. simpl.
    eexists; split; [reflexivity|]. simpl.
    split_and!; try reflexivity.
    intros p [Hin|[]]. discriminate.
Qed.

Lemma applyPostProcessing_branches_witness :
  exists r,
    applyPostProcessing (forceDegradation LockManager_new) (FXGraph_new 48000)
      [F32.lit 1 2; F32.of_Z 3] 2 = Some r
    /\ fx_calls r = [PLC {| isActive := true |}]
    /\ PacketLossConcealer_process {| isActive := true |}
         [F32.lit 1 2; F32.of_Z 3] 2 = Some (fx_buffer r)
    /\ fx_buffer r
       = imap (on_range 0 2 (fade_sample 2)) [F32.lit 1 2; F32.of_Z 3]
    /\ ~ In COMPRESSOR (fx_calls r)
    /\ isActive (plc_ (fx_graph r)) = true.
Proof.
  apply (applyPostProcessing_branches (forceDegradation LockManager_new)
           (FXGraph_new 48000) [F32.lit 1 2; F32.of_Z 3] 2).
  - reflexivity.
  - simpl. lia.
Defined.

(** ** Inference without a model *)

(** C8: without a loaded model [runInference] returns at once: no
    backend is run and the buffer is the one passed in. *)
Theorem runInference_not_loaded (m : InferenceEngineManager) (b : buffer)
    (numSamples : nat) :
  isModelLoaded_ m = false ->
  runInference m b numSamples = (b, []).
Proof. intros H. unfold runInference. rewrite H. reflexivity. Qed.

Lemma runInference_not_loaded_witness :
  runInference manager0 [F32.lit 1 2; S754_nan] 2 = ([F32.lit 1 2; S754_nan], []).
Proof. apply (runInference_not_loaded manager0). reflexivity. Defined.

(** ** The degradation state machine *)

Lemma stability_invariant_new : stability_invariant LockManager_new.
Proof. unfold stability_invariant; simpl. repeat split; congruence. Qed.

Lemma stability_invariant_step (lm : LockManager) (t : Transition) :
  stability_invariant lm -> stability_invariant (apply_transition lm t).
Proof.
  intros Hinv. destruct t; simpl.
  - unfold forceDegradation. destruct (isDegradationActive_ lm) eqn:E;
      [exact Hinv|]. unfold stability_invariant; simpl.
    repeat split; congruence.
  - unfold restorePerformance. destruct (isDegradationActive_ lm) eqn:E;
      simpl; [|exact Hinv]. unfold stability_invariant; simpl.
    repeat split; congruence.
Qed.

Lemma stability_invariant_foldl (ts : list Transition) :
  forall lm, stability_invariant lm ->
    stability_invariant (foldl apply_transition lm ts).
Proof.
  induction ts as [|t ts IH]; intros lm Hinv; simpl.
  - exact Hinv.
  - apply IH. apply stability_invariant_step. exact Hinv.
Qed.

(** C3: after any sequence of [forceDegradation] and [restorePerformance]
    calls on a new controller, the concealment flag is set exactly when
    the controller is degraded, the precision is FP16 when it is degraded
    and FP32 when it is not. *)
Theorem stability_invariant_reachable (ts : list Transition) :
  let lm := run_transitions ts in
  (isPLCActive lm = true <-> isDegradationModeActive lm = true)
  /\ (isDegradationModeActive lm = true -> getCurrentPrecision lm = FP16)
  /\ (isDegradationModeActive lm = false -> getCurrentPrecision lm = FP32).
Proof.
  apply (stability_invariant_foldl ts LockManager_new).
  apply stability_invariant_new.
Qed.

(** C9: a second [forceDegradation] in a row changes nothing, from any
    controller state and so from every reachable one. *)
Theorem forceDegradation_idempotent (lm : LockManager) :
  forceDegradation (forceDegradation lm) = forceDegradation lm.
Proof.
  unfold forceDegradation.
  destruct (isDegradationActive_ lm) eqn:E; simpl; [rewrite E|]; reflexivity.
Qed.

(** * Further properties of the code *)

(** ** Model format *)

Lemma substring_at_suffix (p suffix : string) :
  String.substring (String.length p) (String.length suffix) (p ++ suffix)
  = suffix.
Proof.
  induction p as [|c p IH]; simpl.
  - apply substring_all.
  - exact IH.
Qed.

Lemma has_suffix_substr (suffix s : string) :
  has_suffix suffix s ->
  (String.length suffix <=? String.length s)%nat
    && String.eqb (substr s (String.length s - String.length suffix)) suffix
  = true.
Proof.
  intros [p ->]. rewrite string_length_app.
  apply andb_true_intro. split.
  - apply Nat.leb_le. lia.
  - apply String.eqb_eq. unfold substr. rewrite string_length_app.
    replace (String.length p + String.length suffix - String.length suffix)%nat
      with (String.length p) by lia.
    replace (String.length p + String.length suffix - String.length p)%nat
      with (String.length suffix) by lia.
    apply substring_at_suffix.
Qed.

Lemma get_last_of_suffix (p suffix : string) (k : nat) :
  String.get (k + String.length p) (p ++ suffix) = String.get k suffix.
Proof.
  induction p as [|c p IH]; simpl.
  - rewrite Nat.add_0_r. reflexivity.
  - rewrite Nat.add_succ_r. simpl. exact IH.
Qed.

Lemma tflite_onnx_exclusive (s : string) :
  has_suffix ".tflite" s -> has_suffix ".onnx" s -> False.
Proof.
  intros [p Hp] [q Hq].
  assert (Hlen : (String.length p + 7 = String.length q + 5)%nat).
  { rewrite Hp in Hq. apply (f_equal String.length) in Hq.
    rewrite !string_length_app in Hq. exact Hq. }
  pose proof (get_last_of_suffix p ".tflite" 6) as H1.
  pose proof (get_last_of_suffix q ".onnx" 4) as H2.
  rewrite <- Hp in H1. rewrite <- Hq in H2.
  replace (6 + String.length p)%nat with (4 + String.length q)%nat in H1 by lia.
  rewrite H1 in H2. discriminate.
Qed.

(** X1: [determineModelType] answers by suffix, and by suffix only: TFLITE
    exactly for the paths that end in [.tflite], ONNX exactly for those
    that end in [.onnx], UNKNOWN exactly for the others. *)
Theorem determineModelType_by_suffix (path : string) :
  (determineModelType path = ModelType.TFLITE <-> has_suffix ".tflite" path)
  /\ (determineModelType path = ModelType.ONNX <-> has_suffix ".onnx" path)
  /\ (determineModelType path = ModelType.UNKNOWN <->
        ~ has_suffix ".tflite" path /\ ~ has_suffix ".onnx" path).
Proof.
  pose proof (has_suffix_substr ".tflite" path) as Ht.
  pose proof (has_suffix_substr ".onnx" path) as Ho.
  pose proof (tflite_onnx_exclusive path) as Hex.
  pose proof (substr_suffix path ".tflite" 7) as Ht'.
  pose proof (substr_suffix path ".onnx" 5) as Ho'.
  unfold determineModelType. simpl String.length in Ht, Ho.
  destruct ((7 <=? String.length path)%nat && _) eqn:E1.
  - specialize (Ht' eq_refl). clear Ht Ho Ho'.
    intuition congruence.
  - assert (Hnt : ~ has_suffix ".tflite" path)
      by (intros H; apply Ht in H; discriminate).
    clear Ht Ht'.
    destruct ((5 <=? String.length path)%nat && _) eqn:E2.
    + specialize (Ho' eq_refl). clear Ho. intuition congruence.
    + assert (Hno : ~ has_suffix ".onnx" path)
        by (intros H; apply Ho in H; discriminate).
      clear Ho Ho'. intuition congruence.
Qed.

(** ** Loading and unloading *)

(** X2: the value returned by [loadModel] is the loaded flag after the
    call, from every state, for every path and every pair of backends; a
    failed load leaves no model loaded. *)
Theorem loadModel_result_is_loaded_flag (m : InferenceEngineManager)
    (path : string) (bufferSize : nat) (sampleRate : Z) :
  (loadModel m path bufferSize sampleRate).1
  = isModelLoaded_ (loadModel m path bufferSize sampleRate).2.
Proof.
  unfold loadModel.
  destruct (isModelLoaded_ m) eqn:Hl, (determineModelType path); simpl;
    try rewrite Hl;
    repeat match goal with
    | |- context [engine_loadModel ?e ?p ?b ?s] =>
        destruct (engine_loadModel e p b s)
    end; reflexivity.
Qed.

Lemma loadModel_backends_unchanged (m : InferenceEngineManager)
    (path : string) (size : nat) (rate : Z) :
  tfliteEngine_ (loadModel m path size rate).2 = tfliteEngine_ m
  /\ onnxEngine_ (loadModel m path size rate).2 = onnxEngine_ m.
Proof.
  unfold loadModel.
  destruct (isModelLoaded_ m), (determineModelType path); split; reflexivity.
Qed.

Lemma loadModel_depends_on_backends (m1 m2 : InferenceEngineManager)
    (path : string) (size : nat) (rate : Z) :
  tfliteEngine_ m1 = tfliteEngine_ m2 ->
  onnxEngine_ m1 = onnxEngine_ m2 ->
  determineModelType path <> ModelType.UNKNOWN ->
  loadModel m1 path size rate = loadModel m2 path size rate.
Proof.
  intros Ht Ho Hknown. unfold loadModel, benchmarkAllDelegates.
  destruct (isModelLoaded_ m1) eqn:H1, (isModelLoaded_ m2) eqn:H2,
    (determineModelType path); try congruence; simpl;
    rewrite ?H1, ?H2, ?Ht, ?Ho;
    repeat match goal with
    | |- context [engine_loadModel ?e ?p ?b ?s] =>
        destruct (engine_loadModel e p b s)
    end; reflexivity.
Qed.

(** X3: a load on a recognised path replaces the state: loading [pathB]
    after [pathA] gives the result and the state of loading [pathB]
    directly. *)
Theorem loadModel_after_loadModel (m : InferenceEngineManager)
    (pathA pathB : string) (sizeA sizeB : nat) (rateA rateB : Z) :
  has_suffix ".tflite" pathB \/ has_suffix ".onnx" pathB ->
  loadModel (loadModel m pathA sizeA rateA).2 pathB sizeB rateB
  = loadModel m pathB sizeB rateB.
Proof.
  intros Hsuf.
  assert (Hknown : determineModelType pathB <> ModelType.UNKNOWN).
  { intros HU. apply determineModelType_by_suffix in HU. tauto. }
  destruct (loadModel_backends_unchanged m pathA sizeA rateA) as [Ht Ho].
  apply loadModel_depends_on_backends; assumption.
Qed.

Lemma loadModel_after_loadModel_witness :
  loadModel (loadModel manager0 "a.onnx" 512 44100).2 "voice.tflite" 1024 48000
  = loadModel manager0 "voice.tflite" 1024 48000.
Proof.
  apply (loadModel_after_loadModel manager0 "a.onnx" "voice.tflite").
  left. exists "voice"%string. reflexivity.
Defined.

(** X4: [unloadModel] can be repeated and is what [loadModel] starts
    with: a second unload changes nothing, after an unload [runInference]
    runs no backend and returns the buffer as it is, and a load gives the
    same result and state with or without an unload before it. *)
Theorem unloadModel_absorbed (m : InferenceEngineManager) :
  unloadModel (unloadModel m) = unloadModel m
  /\ (forall b n, runInference (unloadModel m) b n = (b, []))
  /\ (forall path size rate,
        loadModel (unloadModel m) path size rate = loadModel m path size rate).
Proof.
  split; [reflexivity|]. split; [reflexivity|].
  intros path size rate. unfold loadModel.
  destruct (isModelLoaded_ m) eqn:Hl; simpl; [reflexivity|].
  rewrite Hl. reflexivity.
Qed.

(** X5: with the two backends defined in [ie_manager.cpp], [loadModel]
    succeeds on every path that ends in [.tflite] or [.onnx] and selects
    the DSP delegate, and [runInference] returns every buffer unchanged,
    whether a model is loaded or not. *)
Theorem file_backends_behaviour (m : InferenceEngineManager) :
  tfliteEngine_ m = TFLiteEngine ->
  onnxEngine_ m = ONNXEngine ->
  (forall path size rate,
     has_suffix ".tflite" path \/ has_suffix ".onnx" path ->
     (loadModel m path size rate).1 = true
     /\ currentDelegate_ (loadModel m path size rate).2 = DSP
     /\ currentModelPath_ (loadModel m path size rate).2 = path)
  /\ (forall b n, (runInference m b n).1 = b).
Proof.
  intros Ht Ho. split.
  - intros path size rate Hsuf.
    destruct (determineModelType_by_suffix path) as (H1 & H2 & H3).
    assert (Hknown : determineModelType path <> ModelType.UNKNOWN).
    { intros HU. apply H3 in HU. tauto. }
    unfold loadModel, benchmarkAllDelegates.
    destruct (isModelLoaded_ m), (determineModelType path); try congruence;
      simpl; rewrite ?Ht, ?Ho; simpl; repeat split; reflexivity.
  - intros b n. unfold runInference.
    destruct (isModelLoaded_ m), (currentEngine_ m); simpl;
      rewrite ?Ht, ?Ho; reflexivity.
Qed.

Lemma file_backends_behaviour_witness :
  (forall path size rate,
     has_suffix ".tflite" path \/ has_suffix ".onnx" path ->
     (loadModel manager_loaded path size rate).1 = true
     /\ currentDelegate_ (loadModel manager_loaded path size rate).2 = DSP
     /\ currentModelPath_ (loadModel manager_loaded path size rate).2 = path)
  /\ (forall b n, (runInference manager_loaded b n).1 = b).
Proof. apply (file_backends_behaviour manager_loaded); reflexivity. Defined.

(** ** The two states of the controller *)

Lemma run_transitions_two_states (ts : list Transition) :
  run_transitions ts = LockManager_new
  \/ run_transitions ts = LockManager_degraded.
Proof.
  unfold run_transitions.
  induction ts as [|t ts IH] using rev_ind; simpl.
  - left. reflexivity.
  - rewrite foldl_app. simpl.
    destruct IH as [-> | ->], t; simpl; auto.
Qed.

(** X6: the controller state after a sequence of calls depends on the
    last call only: it is the degraded state (FP16, concealment on) after
    [forceDegradation] and the initial state (FP32, concealment off)
    after [restorePerformance]; no other state, and no INT8 precision, is
    ever reached. *)
Theorem run_transitions_last (ts : list Transition) (t : Transition) :
  run_transitions (ts ++ [t])
  = match t with
    | ForceDegradation => LockManager_degraded
    | RestorePerformance => LockManager_new
    end.
Proof.
  unfold run_transitions. rewrite foldl_app. simpl.
  fold (run_transitions ts).
  destruct (run_transitions_two_states ts) as [-> | ->], t; reflexivity.
Qed.

(** ** The stages, sample by sample *)

Lemma gate_sample_cases (x : float) :
  gate_sample x = F32.zero
  \/ (gate_sample x = x /\ F32.ltb (F32.abs x) threshold = false).
Proof.
  unfold gate_sample. destruct (F32.ltb (F32.abs x) threshold); auto.
Qed.

Lemma gate_sample_idempotent (x : float) :
  gate_sample (gate_sample x) = gate_sample x.
Proof.
  destruct (gate_sample_cases x) as [-> | [Hx Hthr]].
  - reflexivity.
  - rewrite Hx. exact Hx.
Qed.

Lemma gate_sample_not_louder (x : float) :
  F32.is_nan x = false -> F32.leb (F32.abs (gate_sample x)) (F32.abs x) = true.
Proof.
  intros Hx. destruct (gate_sample_cases x) as [-> | [-> _]].
  - destruct x as [s|s| |s m e]; try discriminate; reflexivity.
  - apply leb_key; try (destruct x; try discriminate; reflexivity).
    destruct (order_key (F32.abs x)) as [[? ?] ?]. unfold key_lt. simpl. lia.
Qed.

Lemma limiter_sample_in_range (x : float) :
  F32.ltb x limit = true -> F32.ltb (F32.opp limit) x = true ->
  limiter_sample x = x.
Proof.
  intros Hhi Hlo. unfold limiter_sample, F32.min, F32.max.
  rewrite Hhi, Hlo. reflexivity.
Qed.

Lemma limiter_sample_not_louder (x : float) :
  F32.is_nan x = false ->
  F32.leb (F32.abs (limiter_sample x)) (F32.abs x) = true.
Proof.
  intros Hx.
  assert (Habs : F32.is_nan (F32.abs x) = false)
    by (destruct x; try discriminate; reflexivity).
  unfold limiter_sample, F32.min, F32.max.
  destruct (F32.ltb x limit) eqn:Hhi.
  - destruct (F32.ltb (F32.opp limit) x) eqn:Hlo.
    + apply leb_key; try assumption.
      destruct (order_key (F32.abs x)) as [[? ?] ?]. unfold key_lt. simpl. lia.
    + apply leb_key; [reflexivity | assumption |].
      apply not_true_iff_false in Hlo.
      rewrite ltb_key in Hlo by (reflexivity || assumption).
      apply ltb_key in Hhi; [|assumption|reflexivity].
      destruct x as [s|s| |[] m e]; try discriminate;
        try destruct s; unfold key_lt in *; simpl in *; lia.
  - replace (F32.ltb (F32.opp limit) limit) with true by reflexivity.
    apply leb_key; [reflexivity | assumption |].
    apply not_true_iff_false in Hhi.
    rewrite ltb_key in Hhi by (reflexivity || assumption).
    destruct x as [s|s| |[] m e]; try discriminate;
      try destruct s; unfold key_lt in *; simpl in *; lia.
Qed.

Lemma smooth_from_silence (k : nat) :
  smooth_from F32.zero (replicate k F32.zero) = replicate k F32.zero.
Proof.
  induction k as [|k IH]; simpl; [reflexivity|].
  change (smooth_step F32.zero F32.zero) with F32.zero.
  rewrite IH. reflexivity.
Qed.

Lemma one_pole_lowpass_silence (k : nat) :
  one_pole_lowpass (silence k) = silence k.
Proof.
  unfold silence. destruct k as [|k]; simpl; [reflexivity|].
  rewrite smooth_from_silence. reflexivity.
Qed.

(** ** Loops and bounds *)

Lemma imap_on_range_prefix (f : float -> float) (b : buffer) (n : nat) :
  imap (on_range 0 n (fun _ => f)) b = (f <$> take n b) ++ drop n b.
Proof.
  apply list_eq. intros i. rewrite list_lookup_imap.
  destruct (decide (i < n)%nat) as [Hi|Hi].
  - destruct (decide (i < length b)%nat) as [Hib|Hib].
    + rewrite lookup_app_l by (rewrite length_fmap, length_take; lia).
      rewrite list_lookup_fmap, lookup_take_lt by lia.
      destruct (b !! i) as [x|]; simpl; [|reflexivity].
      unfold on_range. rewrite decide_True by lia. reflexivity.
    + rewrite (lookup_ge_None_2 b i) by lia. simpl. symmetry.
      apply lookup_ge_None_2.
      rewrite length_app, length_fmap, length_take, length_drop. lia.
  - destruct (decide (n <= length b)%nat) as [Hn|Hn].
    + rewrite lookup_app_r by (rewrite length_fmap, length_take; lia).
      rewrite length_fmap, length_take, Nat.min_l by lia.
      rewrite lookup_drop. replace (n + (i - n))%nat with i by lia.
      destruct (b !! i) as [x|]; simpl; [|reflexivity].
      unfold on_range. rewrite decide_False by lia. reflexivity.
    + rewrite (lookup_ge_None_2 b i) by lia. simpl. symmetry.
      apply lookup_ge_None_2.
      rewrite length_app, length_fmap, length_take, length_drop. lia.
Qed.

Lemma pointwise_body_length (f : nat -> float -> float) (i : nat)
    (b b' : buffer) :
  pointwise_body f i b = Some b' -> length b' = length b.
Proof.
  unfold pointwise_body, load, store. intros H.
  destruct (b !! i) as [x|]; simpl in H; [|discriminate].
  case_decide; [|discriminate]. injection H as <-. apply length_insert.
Qed.

Lemma for_loop_pointwise_outside (f : nat -> float -> float) (count : nat) :
  forall (i : nat) (b : buffer),
    (i <= length b < i + count)%nat ->
    for_loop count i (pointwise_body f) b = None.
Proof.
  induction count as [|count IH]; intros i b Hlen; [lia|]. simpl.
  destruct (pointwise_body f i b) as [b'|] eqn:Hstep; simpl; [|reflexivity].
  pose proof (pointwise_body_length f i b b' Hstep) as Hl.
  assert (Hi : (i < length b)%nat).
  { unfold pointwise_body, load in Hstep.
    destruct (b !! i) as [x|] eqn:Hx; [|discriminate].
    eapply lookup_lt_Some. eassumption. }
  apply IH. lia.
Qed.

Lemma for_loop_pointwise_is_Some (f : nat -> float -> float) (n : nat)
    (b : buffer) :
  is_Some (for_loop n 0 (pointwise_body f) b) <-> (n <= length b)%nat.
Proof.
  split.
  - intros [out Hout]. destruct (decide (n <= length b)%nat); [assumption|].
    rewrite for_loop_pointwise_outside in Hout by lia. discriminate.
  - intros Hn. rewrite for_loop_pointwise by lia. eauto.
Qed.

Lemma for_loop_split (body : nat -> buffer -> option buffer) (c1 c2 : nat) :
  forall (i : nat) (b : buffer),
    for_loop (c1 + c2) i body b
    = for_loop c1 i body b ≫= for_loop c2 (i + c1) body.
Proof.
  induction c1 as [|c1 IH]; intros i b; simpl.
  - rewrite Nat.add_0_r. reflexivity.
  - destruct (body i b) as [b'|]; simpl; [|reflexivity].
    rewrite IH. replace (S i + c1)%nat with (i + S c1)%nat by lia.
    reflexivity.
Qed.

Lemma ns_body_outside (b : buffer) (i : nat) :
  (length b <= i)%nat -> ns_body i b = None.
Proof.
  intros Hi. unfold ns_body, load.
  rewrite (lookup_ge_None_2 b i) by lia. reflexivity.
Qed.

Lemma NoiseSuppressor_process_outside (b : buffer) (n : nat) :
  (length b < n)%nat -> (2 <= n)%nat -> NoiseSuppressor_process b n = None.
Proof.
  intros Hlen Hn. unfold NoiseSuppressor_process.
  destruct (length b) as [|k] eqn:Hk.
  - apply length_zero_iff_nil in Hk. subst b.
    destruct n as [|[|n]]; try lia. reflexivity.
  - replace (n - 1)%nat with ((S k - 1) + S (n - S k - 1))%nat by lia.
    rewrite for_loop_split.
    pose proof (NoiseSuppressor_process_whole b) as Hwhole.
    unfold NoiseSuppressor_process in Hwhole. rewrite Hk in Hwhole.
    rewrite Hwhole. simpl.
    rewrite ns_body_outside; [reflexivity|].
    rewrite one_pole_lowpass_length. lia.
Qed.

(** X7: a stage call stays inside the buffer exactly when [numSamples] is
    at most the length of the buffer; the noise suppressor, whose loop
    starts at index 1, also stays inside for [numSamples <= 1], and the
    switched-off concealer for every [numSamples].  No stage checks the
    count. *)
Theorem process_stays_inside (stage : AudioProcessor) (b : buffer) (n : nat) :
  is_Some (process stage b n) <-> stays_inside stage (length b) n.
Proof.
  destruct stage as [| | |[[|]]]; simpl.
  - rewrite AcousticEchoCanceller_process_pointwise.
    apply for_loop_pointwise_is_Some.
  - split.
    + intros [out Hout].
      destruct (decide (n <= length b)%nat); [left; assumption|].
      destruct (decide (n <= 1)%nat); [right; assumption|].
      rewrite NoiseSuppressor_process_outside in Hout by lia. discriminate.
    + intros [Hn|Hn].
      * rewrite NoiseSuppressor_process_prefix by exact Hn. eauto.
      * unfold NoiseSuppressor_process.
        replace (n - 1)%nat with 0%nat by lia. simpl. eauto.
  - rewrite MultibandCompressor_process_pointwise.
    apply for_loop_pointwise_is_Some.
  - rewrite PacketLossConcealer_process_pointwise.
    apply for_loop_pointwise_is_Some.
  - split; eauto.
Qed.

(** ** The gate and the limiter on buffers *)

Lemma AcousticEchoCanceller_process_Some (b : buffer) (n : nat) :
  (n <= length b)%nat ->
  AcousticEchoCanceller_process b n
  = Some ((gate_sample <$> take n b) ++ drop n b).
Proof.
  intros Hn. rewrite AcousticEchoCanceller_process_pointwise.
  rewrite for_loop_pointwise by lia. simpl.
  rewrite imap_on_range_prefix. reflexivity.
Qed.

Lemma MultibandCompressor_process_prefix (b : buffer) (n : nat) :
  (n <= length b)%nat ->
  MultibandCompressor_process b n
  = Some ((limiter_sample <$> take n b) ++ drop n b).
Proof.
  intros Hn. rewrite MultibandCompressor_process_Some by exact Hn.
  rewrite imap_on_range_prefix. reflexivity.
Qed.

Lemma prefix_map_length (f : float -> float) (b : buffer) (n : nat) :
  length ((f <$> take n b) ++ drop n b) = length b.
Proof.
  rewrite length_app, length_fmap, length_take, length_drop. lia.
Qed.

Lemma prefix_map_take (f : float -> float) (b : buffer) (n : nat) :
  (n <= length b)%nat ->
  take n ((f <$> take n b) ++ drop n b) = f <$> take n b.
Proof.
  intros Hn. rewrite take_app_le by (rewrite length_fmap, length_take; lia).
  apply take_ge. rewrite length_fmap, length_take. lia.
Qed.

Lemma prefix_map_drop (f : float -> float) (b : buffer) (n : nat) :
  (n <= length b)%nat ->
  drop n ((f <$> take n b) ++ drop n b) = drop n b.
Proof.
  intros Hn. rewrite drop_app_length'; [reflexivity|].
  rewrite length_fmap, length_take. lia.
Qed.

Lemma prefix_map_lookup (f : float -> float) (b : buffer) (n i : nat)
    (x : float) :
  (i < n)%nat -> b !! i = Some x ->
  ((f <$> take n b) ++ drop n b) !! i = Some (f x).
Proof.
  intros Hi Hx. pose proof (lookup_lt_Some _ _ _ Hx) as Hlt.
  rewrite lookup_app_l by (rewrite length_fmap, length_take; lia).
  rewrite list_lookup_fmap, lookup_take_lt by lia. rewrite Hx. reflexivity.
Qed.

Lemma prefix_map_lookup_ge (f : float -> float) (b : buffer) (n i : nat) :
  (n <= length b)%nat -> (n <= i)%nat ->
  ((f <$> take n b) ++ drop n b) !! i = b !! i.
Proof.
  intros Hn Hi.
  rewrite lookup_app_r by (rewrite length_fmap, length_take; lia).
  rewrite length_fmap, length_take, Nat.min_l by lia.
  rewrite lookup_drop. f_equal. lia.
Qed.

(** X8: the gate writes [+0.0] over the samples whose absolute value is
    below [0.005f] and keeps the others, NaN included; after it every
    sample below [numSamples] is [+0.0] or not below the threshold, and a
    second run of the gate changes nothing. *)
Theorem AcousticEchoCanceller_process_gate (b : buffer) (n : nat) :
  (n <= length b)%nat ->
  exists out,
    AcousticEchoCanceller_process b n = Some out
    /\ length out = length b
    /\ (forall i x, (i < n)%nat -> b !! i = Some x ->
          out !! i = Some (if F32.ltb (F32.abs x) threshold
                           then F32.zero else x))
    /\ (forall i, (n <= i)%nat -> out !! i = b !! i)
    /\ (forall i y, (i < n)%nat -> out !! i = Some y ->
          y = F32.zero \/ F32.ltb (F32.abs y) threshold = false)
    /\ AcousticEchoCanceller_process out n = Some out.
Proof.
  intros Hn. eexists. split; [apply AcousticEchoCanceller_process_Some, Hn|].
  split; [apply prefix_map_length|].
  split; [intros i x Hi Hx; apply (prefix_map_lookup gate_sample); assumption|].
  split; [intros i Hi; apply prefix_map_lookup_ge; assumption|].
  split.
  - intros i y Hi Hy.
    destruct (lookup_lt_is_Some_2 b i ltac:(lia)) as [x Hx].
    rewrite (prefix_map_lookup gate_sample b n i x Hi Hx) in Hy.
    injection Hy as <-.
    destruct (gate_sample_cases x) as [-> | [-> Hthr]]; auto.
  - rewrite AcousticEchoCanceller_process_Some
      by (rewrite prefix_map_length; exact Hn).
    rewrite prefix_map_take, prefix_map_drop by exact Hn.
    rewrite <- list_fmap_compose. f_equal. f_equal.
    apply list_fmap_ext. intros i x _. simpl. apply gate_sample_idempotent.
Qed.

Lemma AcousticEchoCanceller_process_gate_witness :
  exists out,
    AcousticEchoCanceller_process [F32.lit 1 1000; S754_nan; F32.lit 1 2] 2
    = Some out
    /\ length out = 3%nat
    /\ (forall i x, (i < 2)%nat ->
          [F32.lit 1 1000; S754_nan; F32.lit 1 2] !! i = Some x ->
          out !! i = Some (if F32.ltb (F32.abs x) threshold
                           then F32.zero else x))
    /\ (forall i, (2 <= i)%nat ->
          out !! i = [F32.lit 1 1000; S754_nan; F32.lit 1 2] !! i)
    /\ (forall i y, (i < 2)%nat -> out !! i = Some y ->
          y = F32.zero \/ F32.ltb (F32.abs y) threshold = false)
    /\ AcousticEchoCanceller_process out 2 = Some out.
Proof.
  apply (AcousticEchoCanceller_process_gate
           [F32.lit 1 1000; S754_nan; F32.lit 1 2] 2).
  simpl. lia.
Defined.

(** X9: the limiter returns the buffer as it is when every sample below
    [numSamples] lies strictly between [-0.99f] and [0.99f]. *)
Theorem MultibandCompressor_process_in_range (b : buffer) (n : nat) :
  (n <= length b)%nat ->
  (forall i x, (i < n)%nat -> b !! i = Some x ->
     F32.ltb x limit = true /\ F32.ltb (F32.opp limit) x = true) ->
  MultibandCompressor_process b n = Some b.
Proof.
  intros Hn Hrange. rewrite MultibandCompressor_process_prefix by exact Hn.
  f_equal. rewrite <- (take_drop n b) at 3. f_equal.
  rewrite <- (list_fmap_id (take n b)) at 2.
  apply list_fmap_ext. intros i x Hx. simpl.
  apply lookup_take_Some in Hx as [Hx Hi].
  destruct (Hrange i x Hi Hx) as [Hhi Hlo].
  apply limiter_sample_in_range; assumption.
Qed.

Lemma MultibandCompressor_process_in_range_witness :
  MultibandCompressor_process [F32.lit 1 2; F32.opp (F32.lit 1 4); F32.of_Z 3] 2
  = Some [F32.lit 1 2; F32.opp (F32.lit 1 4); F32.of_Z 3].
Proof.
  apply (MultibandCompressor_process_in_range
           [F32.lit 1 2; F32.opp (F32.lit 1 4); F32.of_Z 3] 2).
  - simpl. lia.
  - intros i x Hi Hx.
    destruct i as [|[|i]]; [| |lia]; injection Hx as <-;
      split; reflexivity.
Defined.

Lemma leb_abs_refl (x : float) :
  F32.is_nan x = false -> F32.leb (F32.abs x) (F32.abs x) = true.
Proof. destruct x as [s|s| |s m e]; try discriminate; intros _;
  unfold F32.leb, SFleb; simpl; rewrite ?Z.compare_refl,
    ?pos_compare_cont_Eq, ?Pos.compare_refl; reflexivity.
Qed.

(** X10: the gate and the limiter never make a sample louder: whenever
    either stage returns, every sample that was not NaN has an absolute
    value at most the one it had before the call. *)
Theorem gate_limiter_not_louder (stage : AudioProcessor) (b out : buffer)
    (n : nat) :
  stage = AEC \/ stage = COMPRESSOR ->
  process stage b n = Some out ->
  forall i x y,
    b !! i = Some x -> out !! i = Some y -> F32.is_nan x = false ->
    F32.leb (F32.abs y) (F32.abs x) = true.
Proof.
  intros Hstage Hrun i x y Hx Hy Hnan.
  assert (Hn : (n <= length b)%nat).
  { destruct Hstage as [-> | ->]; simpl in Hrun.
    - rewrite AcousticEchoCanceller_process_pointwise in Hrun.
      apply (for_loop_pointwise_is_Some (fun _ => gate_sample)). eauto.
    - rewrite MultibandCompressor_process_pointwise in Hrun.
      apply (for_loop_pointwise_is_Some (fun _ => limiter_sample)). eauto. }
  destruct (decide (i < n)%nat) as [Hi|Hi].
  - destruct Hstage as [-> | ->]; simpl in Hrun.
    + rewrite AcousticEchoCanceller_process_Some in Hrun by exact Hn.
      injection Hrun as <-.
      rewrite (prefix_map_lookup gate_sample b n i x Hi Hx) in Hy.
      injection Hy as <-. apply gate_sample_not_louder, Hnan.
    + rewrite MultibandCompressor_process_prefix in Hrun by exact Hn.
      injection Hrun as <-.
      rewrite (prefix_map_lookup limiter_sample b n i x Hi Hx) in Hy.
      injection Hy as <-. apply limiter_sample_not_louder, Hnan.
  - assert (Hsame : out !! i = b !! i).
    { destruct Hstage as [-> | ->]; simpl in Hrun.
      - rewrite AcousticEchoCanceller_process_Some in Hrun by exact Hn.
        injection Hrun as <-. apply prefix_map_lookup_ge; lia.
      - rewrite MultibandCompressor_process_prefix in Hrun by exact Hn.
        injection Hrun as <-. apply prefix_map_lookup_ge; lia. }
    rewrite Hsame, Hx in Hy. injection Hy as <-. apply leb_abs_refl, Hnan.
Qed.

Lemma gate_limiter_not_louder_witness :
  process COMPRESSOR [F32.of_Z 3; F32.lit 1 2; F32.of_Z 5] 2
  = Some [limit; F32.lit 1 2; F32.of_Z 5]
  /\ forall i x y,
       [F32.of_Z 3; F32.lit 1 2; F32.of_Z 5] !! i = Some x ->
       [limit; F32.lit 1 2; F32.of_Z 5] !! i = Some y ->
       F32.is_nan x = false ->
       F32.leb (F32.abs y) (F32.abs x) = true.
Proof.
  split; [reflexivity|].
  apply (gate_limiter_not_louder COMPRESSOR
           [F32.of_Z 3; F32.lit 1 2; F32.of_Z 5]
           [limit; F32.lit 1 2; F32.of_Z 5] 2).
  - right. reflexivity.
  - reflexivity.
Defined.

(** ** The noise suppressor on a prefix *)

(** X11: called on the first [numSamples] samples of a longer buffer, the
    noise suppressor smooths that prefix and nothing else: the prefix
    becomes its one-pole low-pass, sample 0 and the samples from
    [numSamples] on are kept. *)
Theorem NoiseSuppressor_process_partial (b : buffer) (n : nat) :
  (n <= length b)%nat ->
  exists out,
    NoiseSuppressor_process b n = Some out
    /\ length out = length b
    /\ take n out = one_pole_lowpass (take n b)
    /\ out !! 0%nat = b !! 0%nat
    /\ (forall i, (n <= i)%nat -> out !! i = b !! i).
Proof.
  intros Hn. eexists. split; [apply NoiseSuppressor_process_prefix, Hn|].
  assert (Hl : length (one_pole_lowpass (take n b)) = n)
    by (rewrite one_pole_lowpass_length, length_take; lia).
  split; [rewrite length_app, Hl, length_drop; lia|].
  split; [rewrite take_app_length'; [reflexivity | symmetry; exact Hl]|].
  split.
  - destruct n as [|n]; [reflexivity|].
    destruct b as [|x b]; [simpl in Hn; lia|]. reflexivity.
  - intros i Hi. rewrite lookup_app_r by lia. rewrite Hl, lookup_drop.
    f_equal. lia.
Qed.

Lemma NoiseSuppressor_process_partial_witness :
  exists out,
    NoiseSuppressor_process [F32.lit 1 2; F32.one; F32.of_Z 3] 2 = Some out
    /\ length out = 3%nat
    /\ take 2 out = one_pole_lowpass (take 2 [F32.lit 1 2; F32.one; F32.of_Z 3])
    /\ out !! 0%nat = [F32.lit 1 2; F32.one; F32.of_Z 3] !! 0%nat
    /\ (forall i, (2 <= i)%nat ->
          out !! i = [F32.lit 1 2; F32.one; F32.of_Z 3] !! i).
Proof.
  apply (NoiseSuppressor_process_partial [F32.lit 1 2; F32.one; F32.of_Z 3] 2).
  simpl. lia.
Defined.

(** ** The entry points of the graph *)

(** X12: pre-processing on an initialised graph is the gate followed by
    the noise suppressor on the gated samples: the first [numSamples]
    samples become the one-pole low-pass of their gated values, the rest
    of the buffer and the graph are left as they are. *)
Theorem applyAcousticPreprocessing_composes (g : FXGraph) (b : buffer)
    (n : nat) :
  isInitialized_ g = true ->
  (n <= length b)%nat ->
  applyAcousticPreprocessing g b n
  = Some {| fx_graph := g;
            fx_buffer :=
              one_pole_lowpass (gate_sample <$> take n b) ++ drop n b;
            fx_calls := [AEC; NS] |}.
Proof.
  intros Hinit Hn. unfold applyAcousticPreprocessing. rewrite Hinit. simpl.
  rewrite AcousticEchoCanceller_process_Some by exact Hn. simpl.
  rewrite NoiseSuppressor_process_prefix
    by (rewrite prefix_map_length; exact Hn).
  simpl. rewrite prefix_map_take, prefix_map_drop by exact Hn. reflexivity.
Qed.

Lemma applyAcousticPreprocessing_composes_witness :
  applyAcousticPreprocessing (FXGraph_new 48000)
    [F32.lit 1 1000; F32.one; F32.of_Z 3] 2
  = Some {| fx_graph := FXGraph_new 48000;
            fx_buffer :=
              one_pole_lowpass
                (gate_sample <$> take 2 [F32.lit 1 1000; F32.one; F32.of_Z 3])
              ++ drop 2 [F32.lit 1 1000; F32.one; F32.of_Z 3];
            fx_calls := [AEC; NS] |}.
Proof.
  apply (applyAcousticPreprocessing_composes (FXGraph_new 48000)
           [F32.lit 1 1000; F32.one; F32.of_Z 3] 2).
  - reflexivity.
  - simpl. lia.
Defined.

Lemma applyLowPowerDSP_Some (g : FXGraph) (b : buffer) (n : nat) :
  isInitialized_ g = true ->
  (n <= length b)%nat ->
  applyLowPowerDSP g b n
  = Some {| fx_graph := g;
            fx_buffer :=
              ((fun x => limiter_sample (gate_sample x)) <$> take n b)
              ++ drop n b;
            fx_calls := [AEC; COMPRESSOR] |}.
Proof.
  intros Hinit Hn. unfold applyLowPowerDSP. rewrite Hinit. simpl.
  rewrite AcousticEchoCanceller_process_Some by exact Hn. simpl.
  rewrite MultibandCompressor_process_prefix
    by (rewrite prefix_map_length; exact Hn).
  simpl. rewrite prefix_map_take, prefix_map_drop by exact Hn.
  rewrite <- list_fmap_compose. reflexivity.
Qed.

(** X13: the low-power path on an initialised graph calls the gate and
    the limiter and nothing else, and leaves the graph as it is; each of
    the first [numSamples] samples becomes the limiter's image of its
    gated value, which is within [0.99f] and, for a sample that is not
    NaN, not louder than the sample; the rest of the buffer is kept. *)
Theorem applyLowPowerDSP_gate_then_limit (g : FXGraph) (b : buffer)
    (n : nat) :
  isInitialized_ g = true ->
  (n <= length b)%nat ->
  exists r,
    applyLowPowerDSP g b n = Some r
    /\ fx_graph r = g
    /\ fx_calls r = [AEC; COMPRESSOR]
    /\ length (fx_buffer r) = length b
    /\ (forall i x, (i < n)%nat -> b !! i = Some x ->
          fx_buffer r !! i = Some (limiter_sample (gate_sample x))
          /\ F32.leb (F32.abs (limiter_sample (gate_sample x))) limit = true
          /\ (F32.is_nan x = false ->
              F32.leb (F32.abs (limiter_sample (gate_sample x))) (F32.abs x)
              = true))
    /\ (forall i, (n <= i)%nat -> fx_buffer r !! i = b !! i).
Proof.
  intros Hinit Hn. eexists.
  split; [apply applyLowPowerDSP_Some; assumption|]. simpl.
  split; [reflexivity|]. split; [reflexivity|].
  split; [apply prefix_map_length|]. split.
  - intros i x Hi Hx.
    split; [apply (prefix_map_lookup
                     (fun x => limiter_sample (gate_sample x))); assumption|].
    split; [apply limiter_sample_bounded|].
    intros Hnan. destruct (gate_sample_cases x) as [-> | [-> _]].
    + change (limiter_sample F32.zero) with F32.zero.
      destruct x as [s|s| |s m e]; try discriminate; reflexivity.
    + apply limiter_sample_not_louder, Hnan.
  - intros i Hi. apply prefix_map_lookup_ge; assumption.
Qed.

Lemma applyLowPowerDSP_gate_then_limit_witness :
  exists r,
    applyLowPowerDSP (FXGraph_new 48000) [F32.of_Z 3; S754_nan; F32.one] 2
    = Some r
    /\ fx_graph r = FXGraph_new 48000
    /\ fx_calls r = [AEC; COMPRESSOR]
    /\ length (fx_buffer r) = 3%nat
    /\ (forall i x, (i < 2)%nat ->
          [F32.of_Z 3; S754_nan; F32.one] !! i = Some x ->
          fx_buffer r !! i = Some (limiter_sample (gate_sample x))
          /\ F32.leb (F32.abs (limiter_sample (gate_sample x))) limit = true
          /\ (F32.is_nan x = false ->
              F32.leb (F32.abs (limiter_sample (gate_sample x))) (F32.abs x)
              = true))
    /\ (forall i, (2 <= i)%nat ->
          fx_buffer r !! i = [F32.of_Z 3; S754_nan; F32.one] !! i).
Proof.
  apply (applyLowPowerDSP_gate_then_limit (FXGraph_new 48000)
           [F32.of_Z 3; S754_nan; F32.one] 2).
  - reflexivity.
  - simpl. lia.
Defined.

Lemma silence_prefix (f : float -> float) (k n : nat) :
  f F32.zero = F32.zero -> (n <= k)%nat ->
  (f <$> take n (silence k)) ++ drop n (silence k) = silence k.
Proof.
  intros Hf Hn. unfold silence.
  rewrite take_replicate, drop_replicate, fmap_replicate, Hf.
  rewrite Nat.min_l by lia. rewrite <- replicate_add. f_equal. lia.
Qed.

(** X14: silence stays silence: on an initialised graph and a buffer of
    [+0.0] samples, pre-processing, the low-power path and the limiter
    branch of post-processing all return the buffer unchanged. *)
Theorem silence_preserved (lm : LockManager) (g : FXGraph) (k n : nat) :
  isInitialized_ g = true ->
  (n <= k)%nat ->
  fx_buffer <$> applyAcousticPreprocessing g (silence k) n = Some (silence k)
  /\ fx_buffer <$> applyLowPowerDSP g (silence k) n = Some (silence k)
  /\ (isPLCActive lm = false ->
      fx_buffer <$> applyPostProcessing lm g (silence k) n = Some (silence k)).
Proof.
  intros Hinit Hn.
  assert (Hlen : (n <= length (silence k))%nat)
    by (unfold silence; rewrite length_replicate; exact Hn).
  split; [|split].
  - rewrite applyAcousticPreprocessing_composes by assumption. simpl.
    f_equal. unfold silence.
    rewrite take_replicate, drop_replicate, fmap_replicate.
    change (gate_sample F32.zero) with F32.zero.
    fold (silence (n `min` k)). rewrite one_pole_lowpass_silence.
    unfold silence. rewrite Nat.min_l by lia.
    rewrite <- replicate_add. f_equal. lia.
  - rewrite applyLowPowerDSP_Some by assumption. simpl. f_equal.
    apply (silence_prefix (fun x => limiter_sample (gate_sample x)));
      [reflexivity | exact Hn].
  - intros Hplc. unfold applyPostProcessing. rewrite Hinit, Hplc. simpl.
    rewrite MultibandCompressor_process_prefix by exact Hlen. simpl.
    f_equal. apply silence_prefix; [reflexivity | exact Hn].
Qed.

Lemma silence_preserved_witness :
  fx_buffer <$> applyAcousticPreprocessing (FXGraph_new 48000) (silence 4) 3
  = Some (silence 4)
  /\ fx_buffer <$> applyLowPowerDSP (FXGraph_new 48000) (silence 4) 3
     = Some (silence 4)
  /\ (isPLCActive LockManager_new = false ->
      fx_buffer <$> applyPostProcessing LockManager_new (FXGraph_new 48000)
                      (silence 4) 3 = Some (silence 4)).
Proof.
  apply (silence_preserved LockManager_new (FXGraph_new 48000) 4 3).
  - reflexivity.
  - lia.
Defined.

(** ** One packet through [processAudioNative] *)

Lemma runInference_length (m : InferenceEngineManager) (b : buffer) (n : nat) :
  (forall b' k, length (engine_run (tfliteEngine_ m) b' k) = length b') ->
  (forall b' k, length (engine_run (onnxEngine_ m) b' k) = length b') ->
  length (runInference m b n).1 = length b.
Proof.
  intros Ht Ho. unfold runInference.
  destruct (isModelLoaded_ m), (currentEngine_ m); simpl; auto.
Qed.

Lemma runInference_calls (m : InferenceEngineManager) (b : buffer) (n : nat) :
  (runInference m b n).2
  = if isModelLoaded_ m then [currentEngine_ m] else [].
Proof.
  unfold runInference.
  destruct (isModelLoaded_ m), (currentEngine_ m); reflexivity.
Qed.

Lemma applyPostProcessing_Some (lm : LockManager) (g : FXGraph) (b : buffer)
    (n : nat) :
  isInitialized_ g = true ->
  (n <= length b)%nat ->
  applyPostProcessing lm g b n
  = Some (if isPLCActive lm
          then {| fx_graph := set_plc g {| isActive := true |};
                  fx_buffer := imap (on_range 0 n (fade_sample n)) b;
                  fx_calls := [PLC {| isActive := true |}] |}
          else {| fx_graph := set_plc g {| isActive := false |};
                  fx_buffer := (limiter_sample <$> take n b) ++ drop n b;
                  fx_calls := [COMPRESSOR] |}).
Proof.
  intros Hinit Hn. unfold applyPostProcessing. rewrite Hinit. simpl.
  destruct (isPLCActive lm).
  - unfold PacketLossConcealer_activate.
    rewrite PacketLossConcealer_process_Some by exact Hn. reflexivity.
  - rewrite MultibandCompressor_process_prefix by exact Hn. reflexivity.
Qed.

(** X15: with the transform switched off, a packet goes through the gate
    and the limiter only: the call returns true, runs no backend, leaves
    the inference manager, the controller and the graph as they are, and
    every one of the [bytesRead / 4] samples it hands back is within
    [0.99f]. *)
Theorem processAudioNative_bypass (e : NativeEngine) (bytesRead : Z)
    (b : buffer) (g : FXGraph) :
  isEngineInitialized e = true ->
  isRVCTransforming e = false ->
  sharedBufferPtr e = Some b ->
  fxGraph e = Some g ->
  isInitialized_ g = true ->
  (numSamples_of_bytes bytesRead <= length b)%nat ->
  exists r out,
    processAudioNative e bytesRead = Some r
    /\ jni_result r = true
    /\ backend_calls r = []
    /\ stage_calls r = [AEC; COMPRESSOR]
    /\ ieManager (engine_after r) = ieManager e
    /\ lockInstance (engine_after r) = lockInstance e
    /\ fxGraph (engine_after r) = Some g
    /\ sharedBufferPtr (engine_after r) = Some out
    /\ length out = length b
    /\ (forall i y, (i < numSamples_of_bytes bytesRead)%nat ->
          out !! i = Some y -> F32.leb (F32.abs y) limit = true).
Proof.
  intros Hinit Hoff Hbuf Hg Hginit Hn.
  unfold processAudioNative. rewrite Hinit, Hbuf, Hoff, Hg. simpl.
  rewrite applyLowPowerDSP_Some by assumption. simpl.
  eexists; eexists. split; [reflexivity|]. simpl.
  split_and!; try reflexivity.
  - apply prefix_map_length.
  - intros i y Hi Hy.
    destruct (lookup_lt_is_Some_2 b i ltac:(lia)) as [x Hx].
    rewrite (prefix_map_lookup _ b _ i x Hi Hx) in Hy.
    injection Hy as <-. apply limiter_sample_bounded.
Qed.

Lemma processAudioNative_bypass_witness :
  exists r out,
    processAudioNative
      (engine_ready false [F32.of_Z 3; S754_nan; F32.one] manager0 None) 8
    = Some r
    /\ jni_result r = true
    /\ backend_calls r = []
    /\ stage_calls r = [AEC; COMPRESSOR]
    /\ ieManager (engine_after r) = Some manager0
    /\ lockInstance (engine_after r) = None
    /\ fxGraph (engine_after r) = Some (FXGraph_new 48000)
    /\ sharedBufferPtr (engine_after r) = Some out
    /\ length out = 3%nat
    /\ (forall i y, (i < numSamples_of_bytes 8)%nat ->
          out !! i = Some y -> F32.leb (F32.abs y) limit = true).
Proof.
  apply (processAudioNative_bypass
           (engine_ready false [F32.of_Z 3; S754_nan; F32.one] manager0 None)
           8 [F32.of_Z 3; S754_nan; F32.one] (FXGraph_new 48000));
    try reflexivity.
  vm_compute. lia.
Defined.

(** X16: with the transform switched on and no model loaded, the call
    still returns true: no backend runs, and the buffer handed back is the
    pre-processed packet put through post-processing. *)
Theorem processAudioNative_without_model (e : NativeEngine) (bytesRead : Z)
    (b : buffer) (g : FXGraph) (m : InferenceEngineManager) :
  isEngineInitialized e = true ->
  isRVCTransforming e = true ->
  sharedBufferPtr e = Some b ->
  fxGraph e = Some g ->
  isInitialized_ g = true ->
  ieManager e = Some m ->
  isModelLoaded_ m = false ->
  (numSamples_of_bytes bytesRead <= length b)%nat ->
  let n := numSamples_of_bytes bytesRead in
  let lm := (LockManager_getInstance (lockInstance e)).1 in
  exists r r1 r3,
    processAudioNative e bytesRead = Some r
    /\ jni_result r = true
    /\ backend_calls r = []
    /\ applyAcousticPreprocessing g b n = Some r1
    /\ applyPostProcessing lm (fx_graph r1) (fx_buffer r1) n = Some r3
    /\ sharedBufferPtr (engine_after r) = Some (fx_buffer r3)
    /\ stage_calls r = fx_calls r1 ++ fx_calls r3.
Proof.
  intros Hinit Hon Hbuf Hg Hginit Hm Hnot Hn n lm.
  unfold processAudioNative. rewrite Hinit, Hbuf, Hon, Hg. simpl.
  fold n. rewrite applyAcousticPreprocessing_composes by assumption. simpl.
  rewrite Hm. simpl. unfold runInference. rewrite Hnot. simpl.
  subst lm. destruct (LockManager_getInstance (lockInstance e)) as [lm inst].
  simpl.
  assert (Hlen : (n <= length (one_pole_lowpass (gate_sample <$> take n b)
                               ++ drop n b))%nat).
  { rewrite length_app, one_pole_lowpass_length, length_fmap, length_take,
      length_drop. lia. }
  rewrite applyPostProcessing_Some by assumption. simpl.
  do 3 eexists.
  split; [reflexivity|]. split; [reflexivity|]. split; [reflexivity|].
  split; [reflexivity|].
  split; [simpl; apply applyPostProcessing_Some; assumption|].
  split; reflexivity.
Qed.

Lemma processAudioNative_without_model_witness :
  let e := engine_ready true [F32.of_Z 3; F32.lit 1 1000; F32.one] manager0 None in
  let n := numSamples_of_bytes 12 in
  let lm := (LockManager_getInstance (lockInstance e)).1 in
  exists r r1 r3,
    processAudioNative e 12 = Some r
    /\ jni_result r = true
    /\ backend_calls r = []
    /\ applyAcousticPreprocessing (FXGraph_new 48000)
         [F32.of_Z 3; F32.lit 1 1000; F32.one] n = Some r1
    /\ applyPostProcessing lm (fx_graph r1) (fx_buffer r1) n = Some r3
    /\ sharedBufferPtr (engine_after r) = Some (fx_buffer r3)
    /\ stage_calls r = fx_calls r1 ++ fx_calls r3.
Proof.
  apply (processAudioNative_without_model
           (engine_ready true [F32.of_Z 3; F32.lit 1 1000; F32.one] manager0 None)
           12 [F32.of_Z 3; F32.lit 1 1000; F32.one] (FXGraph_new 48000)
           manager0); reflexivity.
Defined.

(** X17: with the transform switched on and backends that keep the
    length of the buffer, a packet runs pre-processing, the backend of
    the loaded model if there is one, and the post-processing stage
    chosen by the controller; the call returns true and leaves the
    inference manager as it is, the controller instance exists
    afterwards, and in the normal state every one of the
    [bytesRead / 4] samples handed back is within [0.99f], whatever the
    backend wrote. *)
Theorem processAudioNative_transform (e : NativeEngine) (bytesRead : Z)
    (b : buffer) (g : FXGraph) (m : InferenceEngineManager) :
  isEngineInitialized e = true ->
  isRVCTransforming e = true ->
  sharedBufferPtr e = Some b ->
  fxGraph e = Some g ->
  isInitialized_ g = true ->
  ieManager e = Some m ->
  (forall b' k, length (engine_run (tfliteEngine_ m) b' k) = length b') ->
  (forall b' k, length (engine_run (onnxEngine_ m) b' k) = length b') ->
  (numSamples_of_bytes bytesRead <= length b)%nat ->
  let n := numSamples_of_bytes bytesRead in
  let lm := (LockManager_getInstance (lockInstance e)).1 in
  exists r out,
    processAudioNative e bytesRead = Some r
    /\ jni_result r = true
    /\ ieManager (engine_after r) = Some m
    /\ lockInstance (engine_after r) = Some lm
    /\ backend_calls r = (if isModelLoaded_ m then [currentEngine_ m] else [])
    /\ stage_calls r
       = [AEC; NS;
          if isPLCActive lm then PLC {| isActive := true |} else COMPRESSOR]
    /\ sharedBufferPtr (engine_after r) = Some out
    /\ length out = length b
    /\ (isPLCActive lm = false ->
        forall i y, (i < n)%nat -> out !! i = Some y ->
          F32.leb (F32.abs y) limit = true).
Proof.
  intros Hinit Hon Hbuf Hg Hginit Hm Ht Ho Hn n lm.
  unfold processAudioNative. rewrite Hinit, Hbuf, Hon, Hg. simpl.
  fold n. rewrite applyAcousticPreprocessing_composes by assumption. simpl.
  rewrite Hm. simpl.
  set (b1 := one_pole_lowpass (gate_sample <$> take n b) ++ drop n b).
  assert (Hb1 : length b1 = length b).
  { unfold b1. rewrite length_app, one_pole_lowpass_length, length_fmap,
      length_take, length_drop. lia. }
  pose proof (runInference_length m b1 n Ht Ho) as Hlen2.
  pose proof (runInference_calls m b1 n) as Hcalls.
  destruct (runInference m b1 n) as [b2 ran]. simpl in Hlen2, Hcalls.
  subst lm. destruct (LockManager_getInstance (lockInstance e)) as [lm inst] eqn:Hlm.
  assert (Hinst : inst = Some lm).
  { unfold LockManager_getInstance in Hlm.
    destruct (lockInstance e); injection Hlm as <- <-; reflexivity. }
  simpl. rewrite applyPostProcessing_Some by (try assumption; lia). simpl.
  destruct (isPLCActive lm) eqn:Hplc; simpl;
    do 2 eexists; (split; [reflexivity|]); simpl;
    split_and!; try reflexivity; try assumption; try discriminate.
  - rewrite length_imap. lia.
  - rewrite prefix_map_length. lia.
  - intros _ i y Hi Hy.
    destruct (lookup_lt_is_Some_2 b2 i ltac:(lia)) as [x Hx].
    rewrite (prefix_map_lookup _ b2 _ i x Hi Hx) in Hy.
    injection Hy as <-. apply limiter_sample_bounded.
Qed.

Lemma processAudioNative_transform_witness :
  let e := engine_ready true [F32.of_Z 3; F32.lit 1 1000; F32.one]
             manager_loaded None in
  let n := numSamples_of_bytes 12 in
  let lm := (LockManager_getInstance (lockInstance e)).1 in
  exists r out,
    processAudioNative e 12 = Some r
    /\ jni_result r = true
    /\ ieManager (engine_after r) = Some manager_loaded
    /\ lockInstance (engine_after r) = Some lm
    /\ backend_calls r
       = (if isModelLoaded_ manager_loaded
          then [currentEngine_ manager_loaded] else [])
    /\ stage_calls r
       = [AEC; NS;
          if isPLCActive lm then PLC {| isActive := true |} else COMPRESSOR]
    /\ sharedBufferPtr (engine_after r) = Some out
    /\ length out = length [F32.of_Z 3; F32.lit 1 1000; F32.one]
    /\ (isPLCActive lm = false ->
        forall i y, (i < n)%nat -> out !! i = Some y ->
          F32.leb (F32.abs y) limit = true).
Proof.
  apply (processAudioNative_transform
           (engine_ready true [F32.of_Z 3; F32.lit 1 1000; F32.one]
              manager_loaded None)
           12 [F32.of_Z 3; F32.lit 1 1000; F32.one] (FXGraph_new 48000)
           manager_loaded); reflexivity.
Defined.
